(** * digitallinguistics/db: the Database client over Cosmos DB

    A shallow embedding of [src/Database.js].  The class talks to three
    collaborators that are not part of that file: the Cosmos DB client
    (an external service), [validate] and the [DatabaseResponse] class.
    The provider and [validate] are parameters of the development; the
    methods of [Database] are written in a small state-and-exception monad
    over the provider's world, and every provider call is recorded in a
    dispatch log so that statements about "what was sent, and in which
    order" can be made.  [clear] runs two calls of [clearContainer] side
    by side; for it, a call is also given as the steps it takes between
    its [await]s. *)

From stdpp Require Import list strings pretty.

Local Open Scope string_scope.
Local Open Scope list_scope.

(** ** JavaScript values that the code inspects *)

(** The values an error's [code] or a response's [status] may hold. *)
Inductive JsVal :=
| JUndefined
| JNum (n : Z)
| JStr (s : string).

#[global] Instance JsVal_eq_dec : EqDecision JsVal.
Proof. solve_decision. Defined.

(** [x === 409] and friends: strict equality with a number literal. *)
Definition strict_eq_num (v : JsVal) (n : Z) : bool :=
  match v with
  | JNum m => bool_decide (m = n)
  | _ => false
  end.

(** A property that is documented as a [String]: [None] is [undefined]. *)
Definition truthy (v : option string) : bool :=
  match v with
  | Some s => negb (bool_decide (s = ""))
  | None => false
  end.

(** Template-literal interpolation [`${ v }`] of such a property. *)
Definition interpolate (v : option string) : string :=
  match v with
  | Some s => s
  | None => "undefined"
  end.

(** The line feed inside a multi-line template literal. *)
Definition LF : string := String (Ascii.ascii_of_nat 10) "".

(** ** utilities/chunk.js *)

Section Chunk.
Context {T : Type}.

Fixpoint chunk_go (fuel : nat) (items : list T) (size : nat) : list (list T) :=
  match fuel, items with
  | S fuel', _ :: _ => take size items :: chunk_go fuel' (drop size items) size
  | _, _ => []
  end.

(** Modelled from the spec: [utilities/chunk.js] is not among the sources.
    The spec's Chunker has the contract
    [chunk(items, size : PositiveInteger)]: consecutive groups of at most
    [size] elements in the original order, the last one possibly smaller,
    and no chunk at all for an empty input.  One group is cut per unit of
    fuel; the length of the input is always enough (see [chunk_go_fuel]). *)
Definition chunk (items : list T) (size : positive) : list (list T) :=
  chunk_go (length items) items (Pos.to_nat size).

End Chunk.

(** ** Documents, operations and what the provider answers *)

(** The two containers of the database, [this.data] and [this.metadata]. *)
Inductive Container := Data | Metadata.

#[global] Instance Container_eq_dec : EqDecision Container.
Proof. solve_decision. Defined.

Definition container_name (c : Container) : string :=
  match c with Data => "data" | Metadata => "metadata" end.

(** A document: its [id] ([None] when the property is not set) and its
    other properties. *)
Record Item := {
  id : option string;
  fields : list (string * JsVal)
}.

#[global] Instance Item_eq_dec : EqDecision Item.
Proof. solve_decision. Defined.

Inductive OperationType := Create | Read | Delete.

#[global] Instance OperationType_eq_dec : EqDecision OperationType.
Proof. solve_decision. Defined.

(** An operation object of a bulk or batch request; a property that the
    object literal does not set is [None]. *)
Record Operation := {
  op_id : option string;
  op_operationType : OperationType;
  op_partitionKey : option string;
  op_resourceBody : option Item
}.

#[global] Instance Operation_eq_dec : EqDecision Operation.
Proof. solve_decision. Defined.

(** The provider's answer for one operation of a bulk or batch request. *)
Record OperationResponse := {
  res_statusCode : Z;
  res_resourceBody : option Item
}.

(** The provider's answer for a whole batch: [response.code] and
    [response.result]. *)
Record BatchResponse := {
  code : Z;
  result : list OperationResponse
}.

(** The provider's answer for a point create or read: [resource] and
    [statusCode]. *)
Record ItemResponse := {
  resource : option Item;
  statusCode : Z
}.

(** A row of an aggregate query: the value of its [$1] column. *)
Record Row := { dollar1 : JsVal }.

(** An error object thrown by a collaborator: [err.code], [err.message]. *)
Record Err := {
  err_code : JsVal;
  err_message : option string
}.

(** How a promise of the provider settles. *)
Inductive Settled (A : Type) :=
| Resolved (a : A)
| Rejected (e : Err).
Arguments Resolved {A} a.
Arguments Rejected {A} e.

(** What a method can throw: an error object of a collaborator, a
    [TypeError] of the engine (its text is engine-specific; no statement
    below depends on it), or the [Error] that [delete] creates. *)
Inductive Exn :=
| Raised (e : Err)
| TypeError (text : string)
| GuardError (text : string).

Definition exn_code (e : Exn) : JsVal :=
  match e with Raised e => err_code e | _ => JUndefined end.

Definition exn_message (e : Exn) : option string :=
  match e with
  | Raised e => err_message e
  | TypeError text | GuardError text => Some text
  end.

(** ** DatabaseResponse.js *)

Module DatabaseResponse.

(** An entry of the list that [getMany] returns. *)
Record Entry := {
  entry_data : option Item;
  entry_id : option string;
  entry_status : Z
}.

(** The shapes of [data] that the methods of [Database] produce. *)
Inductive Payload :=
| OneItem (item : Item)
| Items (items : list Item)
| RawResults (results : list OperationResponse)
| Bodies (bodies : list (option Item))
| Entries (entries : list Entry)
| Count (count : JsVal).

(** [{ data?, message?, status }]; an [undefined] property is [None],
    respectively [JUndefined]. *)
Record t := mk {
  data : option Payload;
  message : option string;
  status : JsVal
}.

(** Modelled from the spec: [DatabaseResponse.js] is not among the sources.
    The spec's NormalizedResponse is [{ data?, message?, status }] with
    [status] always present: the constructor keeps the [data] and [message]
    it is given, and keeps the [status] it is given or, when there is none,
    falls back to a status of its own.  The spec does not name that status,
    which is the parameter [defaultStatus]. *)
Definition new (defaultStatus : Z) (args : t) : t :=
  {| data := data args;
     message := message args;
     status := match status args with
               | JUndefined => JNum defaultStatus
               | given => given
               end |}.

End DatabaseResponse.

(** ** The Cosmos DB client *)

(** The storage provider, an external service: each call takes the
    provider's world to a new one and settles.  [create] also yields the
    document object as the call leaves it (the client sets an [id] on the
    caller's object), and a query iterator hands out its pages and then
    either ends or rejects. *)
Record Provider := {
  World : Type;
  items_create : Container -> Item -> World -> Item * Settled ItemResponse * World;
  items_batch : Container -> list Operation -> string -> World ->
                Settled BatchResponse * World;
  items_bulk : Container -> list Operation -> bool -> World ->
               Settled (list OperationResponse) * World;
  item_read : Container -> string -> string -> World ->
              Settled ItemResponse * World;
  query_fetchAll : Container -> string -> World -> Settled (list Row) * World;
  query_iterate : Container -> string -> World ->
                  list (list Item) * option Err * World;
  items_readAll : Container -> World -> Settled (list Item) * World;
  database_delete : World -> Settled unit * World;
  databases_createIfNotExists : string -> World -> Settled unit * World;
  containers_createIfNotExists : string -> string -> World -> Settled unit * World
}.

(** What leaves the process, in the order in which it leaves. *)
Inductive Dispatch :=
| SentCreate (c : Container) (body : Item)
| SentBatch (c : Container) (operations : list Operation) (key : string)
| SentBulk (c : Container) (operations : list Operation) (continueOnError : bool)
| SentRead (c : Container) (id partition : string)
| SentFetchAll (c : Container) (query : string)
| SentIterate (c : Container) (query : string)
| SentReadAll (c : Container)
| SentDeleteDatabase
| SentCreateDatabase (id : string)
| SentCreateContainer (id partitionKey : string)
| ConsoleInfo (line : string).

(** Is the entry a request to the store? *)
Definition to_store (d : Dispatch) : bool :=
  match d with ConsoleInfo _ => false | _ => true end.

(** ** The monad of the methods *)

Inductive Outcome (A : Type) :=
| Returned (a : A)
| Thrown (e : Exn).
Arguments Returned {A} a.
Arguments Thrown {A} e.

Record St (P : Provider) := {
  world : World P;
  log : list Dispatch
}.
Arguments world {P} s.
Arguments log {P} s.

Definition M (P : Provider) (A : Type) : Type := St P -> Outcome A * St P.

#[global] Instance M_ret P : MRet (M P) := fun A a s => (Returned a, s).

#[global] Instance M_bind P : MBind (M P) := fun A B f m s =>
  match m s with
  | (Returned a, s') => f a s'
  | (Thrown e, s') => (Thrown e, s')
  end.

#[global] Instance M_fmap P : FMap (M P) := fun A B f m s =>
  match m s with
  | (Returned a, s') => (Returned (f a), s')
  | (Thrown e, s') => (Thrown e, s')
  end.

Definition throw {P A} (e : Exn) : M P A := fun s => (Thrown e, s).

(** [try { body } catch (err) { handler }] *)
Definition try_catch {P A} (body : M P A) (handler : Exn -> M P A) : M P A :=
  fun s =>
    match body s with
    | (Returned a, s') => (Returned a, s')
    | (Thrown e, s') => handler e s'
    end.

(** Awaiting a promise of the provider: the request is logged, the world
    moves on, and a rejection is thrown. *)
Definition await {P A} (d : Dispatch)
    (call : World P -> Settled A * World P) : M P A :=
  fun s =>
    let '(settled, w) := call (world s) in
    let s' := {| world := w; log := log s ++ [d] |} in
    match settled with
    | Resolved a => (Returned a, s')
    | Rejected e => (Thrown (Raised e), s')
    end.

Definition console_info {P} (line : string) : M P unit :=
  fun s => (Returned tt, {| world := world s; log := log s ++ [ConsoleInfo line] |}).

(** A synchronous computation that may throw, run inside a method. *)
Definition lift {P A} (o : Outcome A) : M P A := fun s => (o, s).

(** [array.map((x, i) => ...)] with a callback that may throw. *)
Fixpoint map_from {A B} (f : nat -> A -> Outcome B) (i : nat) (l : list A)
  : Outcome (list B) :=
  match l with
  | [] => Returned []
  | x :: rest =>
      match f i x with
      | Thrown e => Thrown e
      | Returned y =>
          match map_from f (S i) rest with
          | Thrown e => Thrown e
          | Returned ys => Returned (y :: ys)
          end
      end
  end.

(** [for (const x of xs) { ... }] whose body may [return]: the body either
    leaves the loop with the method's result or goes on with the loop's
    variables. *)
Inductive Step (R S : Type) :=
| Return (r : R)
| Next (s : S).
Arguments Return {R S} r.
Arguments Next {R S} s.

Fixpoint for_of {P X R S} (xs : list X) (body : X -> S -> M P (Step R S))
    (s : S) : M P (Step R S) :=
  match xs with
  | [] => mret (Next s)
  | x :: rest =>
      step ← body x s;
      match step with
      | Return r => mret (Return r)
      | Next s' => for_of rest body s'
      end
  end.

(** [for await (const page of iterator) { ... }]: the body runs on every
    page that arrives; a rejection of the iterator is thrown after them. *)
Definition for_await {P S} (pages : list (list Item) * option Err)
    (body : list Item -> S -> S) (s : S) : M P S :=
  let s' := foldl (fun acc page => body page acc) s pages.1 in
  match pages.2 with
  | Some e => throw (Raised e)
  | None => mret s'
  end.

(** ** [async] calls side by side

    A call of an [async] function runs up to its first [await] and hands
    back a promise; the function goes on when what it awaits settles.  A
    call that has got that far is a [Task]: finished, failed, or waiting
    for the answer to a request [d] that it has sent. *)
Inductive Task (P : Provider) (A : Type) : Type :=
| Finished (a : A)
| Failed (e : Exn)
| Awaiting {B : Type} (d : Dispatch) (call : World P -> Settled B * World P)
    (resume : Settled B -> Task P A).
Arguments Finished {P A} a.
Arguments Failed {P A} e.
Arguments Awaiting {P A B} d call resume.

(** [const b = await call; ...]: a rejection is thrown in the function,
    which has no [try] block around it. *)
Definition awaiting {P A B} (d : Dispatch) (call : World P -> Settled B * World P)
    (rest : B -> Task P A) : Task P A :=
  Awaiting d call (fun settled =>
                     match settled with
                     | Resolved b => rest b
                     | Rejected e => Failed (Raised e)
                     end).

(** The request of a call that waits has left the process. *)
Definition sent {P A} (t : Task P A) : list Dispatch :=
  match t with
  | Awaiting d _ _ => [d]
  | _ => []
  end.

Definition start {P A} (t : Task P A) : M P unit :=
  fun s => (Returned tt, {| world := world s; log := log s ++ sent t |}).

(** [await] on a call that has been made, nothing else going on: when
    the answer to its request arrives, the world moves on and the
    function runs up to its next [await], whose request leaves. *)
Fixpoint finish {P A} (t : Task P A) : M P A :=
  match t with
  | Finished a => mret a
  | Failed e => throw e
  | Awaiting d call resume =>
      fun s =>
        let '(settled, w) := call (world s) in
        let t := resume settled in
        finish t {| world := w; log := log s ++ sent t |}
  end.

(** [await Promise.all([p1, p2])] on two calls that have been made, in
    that order.  The answers to their requests arrive in an order that
    the process does not choose: [arrival] tells, as long as both calls
    wait, whether the next answer is for the first one; it is, once
    [arrival] is used up.  The promise is rejected as soon as one call
    fails, with that call's error, and fulfilled when both have
    finished; what the other call does after a rejection is not part of
    the [await]. *)
Fixpoint Promise_all {P A} (t1 : Task P A) : Task P A -> list bool -> M P (A * A) :=
  fix with_second (t2 : Task P A) (arrival : list bool) : M P (A * A) :=
    match t1, t2 with
    | Failed e, _ => throw e
    | _, Failed e => throw e
    | Finished a1, Finished a2 => mret (a1, a2)
    | Awaiting _ call1 resume1, Finished _ =>
        fun s =>
          let '(settled, w) := call1 (world s) in
          let t := resume1 settled in
          Promise_all t t2 arrival {| world := w; log := log s ++ sent t |}
    | Finished _, Awaiting _ call2 resume2 =>
        fun s =>
          let '(settled, w) := call2 (world s) in
          let t := resume2 settled in
          with_second t arrival {| world := w; log := log s ++ sent t |}
    | Awaiting _ call1 resume1, Awaiting _ call2 resume2 =>
        match arrival with
        | false :: arrival =>
            fun s =>
              let '(settled, w) := call2 (world s) in
              let t := resume2 settled in
              with_second t arrival {| world := w; log := log s ++ sent t |}
        | _ =>
            fun s =>
              let '(settled, w) := call1 (world s) in
              let t := resume1 settled in
              Promise_all t t2 (tail arrival) {| world := w; log := log s ++ sent t |}
        end
    end.

(** ** Database.js *)

Module Database.

(** The fields of an instance that the methods read: [this.dbName] and
    the map [this.types] from record types to containers ([types.js] is
    not among the sources, so the map is a field to be filled in). *)
Record t := {
  dbName : string;
  types : string -> option Container
}.

(** Cosmos DB's limit on bulk operations. *)
Definition bulkLimit : positive := 100.

Record CountOptions := {
  language : option string;
  project : option string
}.

(** The options of [getProjects]: [None] when the object has no [user]
    key, [Some v] when it has one with value [v]. *)
Record ProjectsOptions := { user : option (option string) }.

Definition DQUOTE : string := String (Ascii.ascii_of_nat 34) "".

Section Methods.
Context (P : Provider).
Context (validate : Item -> option Err).
Context (defaultStatus : Z).
Context (this : t).

Local Abbreviation Response := DatabaseResponse.t.
Local Abbreviation new := (DatabaseResponse.new defaultStatus).

(** [validate(data)], which throws when it rejects the data. *)
Definition validated (data : Item) : M P unit :=
  match validate data with
  | Some e => throw (Raised e)
  | None => mret tt
  end.

(** [this[container].items.create(data)]: the request leaves, and the
    promise comes back together with the object as the client left it. *)
Definition send_create (c : Container) (data : Item)
  : M P (Item * Settled ItemResponse) :=
  fun s =>
    let '(data', settled, w) := items_create P c data (world s) in
    (Returned (data', settled),
     {| world := w; log := log s ++ [SentCreate c data] |}).

Definition settle {A} (p : Settled A) : M P A :=
  match p with
  | Resolved a => mret a
  | Rejected e => throw (Raised e)
  end.

Definition delete : M P unit :=
  if bool_decide (dbName this = "digitallinguistics") then
    throw (GuardError ("This error is here to guard against accidental deletion. Comment it out or delete the database manually if you really truly actually srsly for realzies do want to delete the "
                       +:+ DQUOTE +:+ "digitallinguistics" +:+ DQUOTE +:+ " database."))
  else
    console_info ("Deleting the " +:+ DQUOTE +:+ dbName this +:+ DQUOTE +:+ " database.");;
    await SentDeleteDatabase (database_delete P);;
    console_info ("Database " +:+ DQUOTE +:+ dbName this +:+ DQUOTE +:+ " successfully deleted.").

Definition addOne (container : Container) (data : Item) : M P Response :=
  validated data;;
  '(data, promise) ← send_create container data;
  try_catch
    (response ← settle promise;
     mret (new {| DatabaseResponse.data := DatabaseResponse.OneItem <$> resource response;
                  DatabaseResponse.message := None;
                  DatabaseResponse.status := JNum (statusCode response) |}))
    (fun err =>
       let message :=
         if strict_eq_num (exn_code err) 409
         then Some ("Item with ID " +:+ interpolate (id data) +:+ " already exists.")
         else exn_message err in
       mret (new {| DatabaseResponse.data := None;
                    DatabaseResponse.message := message;
                    DatabaseResponse.status := exn_code err |})).

(** [resourceBody => ({ operationType, resourceBody })] with
    [operationType = `Create`]. *)
Definition create_operation (resourceBody : Item) : Operation :=
  {| op_id := None;
     op_operationType := Create;
     op_partitionKey := None;
     op_resourceBody := Some resourceBody |}.

(** The body of the loop of [addMany]: send one batch; on 207 leave with
    the raw results, otherwise push the results and go on. *)
Definition addMany_body (container : Container) (partitionKey : string)
    (batch : list Operation) (results : list OperationResponse)
  : M P (Step Response (list OperationResponse)) :=
  response ← await (SentBatch container batch partitionKey)
                   (items_batch P container batch partitionKey);
  if bool_decide (code response = 207%Z) then
    mret (Return (new {| DatabaseResponse.data :=
                           Some (DatabaseResponse.RawResults (result response));
                         DatabaseResponse.message := None;
                         DatabaseResponse.status := JNum 207 |}))
  else
    mret (Next (results ++ result response)).

Definition addMany (container : Container) (partitionKey : string)
    (items : list Item) : M P Response :=
  let operations := map create_operation items in
  let batches := chunk operations bulkLimit in
  step ← for_of batches (addMany_body container partitionKey) [];
  match step with
  | Return response => mret response
  | Next results =>
      let data := map res_resourceBody results in
      mret (new {| DatabaseResponse.data := Some (DatabaseResponse.Bodies data);
                   DatabaseResponse.message := None;
                   DatabaseResponse.status := JNum 201 |})
  end.

(** [seedOne] is not an [async] function: it hands back the promise of
    the create call, which is awaited here; a rejection is thrown. *)
Definition seedOne (container : Container) (data : Item) : M P ItemResponse :=
  validated data;;
  '(data, promise) ← send_create container data;
  settle promise.

(** [container === `data` ? copy.language?.id : copy.type]: the value of
    the partition key of a document to seed.  The language of a document
    is an object, which [fields] does not hold, so reading the key off the
    document is a parameter; it yields a string, as the NB in [seedMany]
    asks of the documents it is given. *)
Context (partition_of : Container -> Item -> string).

(** The body of the loop of [seedMany]: send one batch and push its
    results, whatever its code.  The loop has no [return]. *)
Definition seedMany_body (container : Container) (partitionKey : string)
    (batch : list Operation) (results : list OperationResponse)
  : M P (Step Empty_set (list OperationResponse)) :=
  response ← await (SentBatch container batch partitionKey)
                   (items_batch P container batch partitionKey);
  mret (Next (results ++ result response)).

Definition seedMany (container : Container) (count : nat) (data : Item)
  : M P (list OperationResponse) :=
  validated data;;
  let copy := {| id := None; fields := fields data |} in
  let partitionKey := partition_of container copy in
  let operations := replicate count (create_operation copy) in
  let batches := chunk operations bulkLimit in
  step ← for_of batches (seedMany_body container partitionKey) [];
  match step with
  | Return impossible => Empty_set_rect _ impossible
  | Next results => mret results
  end.

(** The clause that [count], [getLanguages] and [getLexemes] append for
    the [project] option; [container] is the interpolated container name. *)
Definition project_clause (container project : string) : string :=
  " AND EXISTS(" +:+ LF +:+
  "        SELECT VALUE project" +:+ LF +:+
  "        FROM project IN " +:+ container +:+ ".projects" +:+ LF +:+
  "        WHERE project.id = '" +:+ project +:+ "'" +:+ LF +:+
  "      )".

(** The query text that [count] builds; [container] is [this.types.get(type)]. *)
Definition count_query (container : option Container) (type : string)
    (options : CountOptions) : string :=
  let name := interpolate (container_name <$> container) in
  let '{| language := language; project := project |} := options in
  let query := "SELECT COUNT(" +:+ name +:+ ") FROM " +:+ name +:+ " WHERE "
               +:+ name +:+ ".type = '" +:+ type +:+ "'" in
  let query :=
    if truthy language
    then query +:+ " AND " +:+ name +:+ ".language.id = '" +:+ interpolate language +:+ "'"
    else query in
  if truthy project
  then query +:+ project_clause name (interpolate project)
  else query.

Definition count (type : string) (options : CountOptions) : M P Response :=
  let container := types this type in
  let query := count_query container type options in
  match container with
  | None => throw (TypeError "Cannot read properties of undefined (reading 'items')")
  | Some container =>
      resources ← await (SentFetchAll container query) (query_fetchAll P container query);
      match resources with
      | [] => throw (TypeError "Cannot read properties of undefined (reading '$1')")
      | {| dollar1 := count |} :: _ =>
          mret (new {| DatabaseResponse.data := Some (DatabaseResponse.Count count);
                       DatabaseResponse.message := None;
                       DatabaseResponse.status := JUndefined |})
      end
  end.

Definition getOne (container : Container) (partition id : string) : M P Response :=
  response ← await (SentRead container id partition) (item_read P container id partition);
  mret (new {| DatabaseResponse.data := DatabaseResponse.OneItem <$> resource response;
               DatabaseResponse.message := None;
               DatabaseResponse.status := JNum (statusCode response) |}).

(** [id => ({ id, operationType, partitionKey })] with
    [operationType = `Read`]. *)
Definition read_operation (partitionKey id : string) : Operation :=
  {| op_id := Some id;
     op_operationType := Read;
     op_partitionKey := Some partitionKey;
     op_resourceBody := None |}.

(** [({ resourceBody, statusCode }, i) =>
       ({ data: resourceBody, id: operations[i].id, status: statusCode })];
    reading [id] off a missing [operations[i]] is a [TypeError]. *)
Definition entry_of (operations : list Operation) (i : nat)
    (result : OperationResponse) : Outcome DatabaseResponse.Entry :=
  let '{| res_resourceBody := resourceBody; res_statusCode := statusCode |} := result in
  match operations !! i with
  | None => Thrown (TypeError "Cannot read properties of undefined (reading 'id')")
  | Some operation =>
      Returned {| DatabaseResponse.entry_data := resourceBody;
                  DatabaseResponse.entry_id := op_id operation;
                  DatabaseResponse.entry_status := statusCode |}
  end.

Definition getMany (container : Container) (partitionKey : string)
    (ids : list string) : M P Response :=
  if bool_decide (Pos.to_nat bulkLimit < length ids) then
    mret (new {| DatabaseResponse.data := None;
                 DatabaseResponse.message :=
                   Some ("You can only retrieve " +:+ pretty (Npos bulkLimit)
                         +:+ " items at a time.");
                 DatabaseResponse.status := JNum 400 |})
  else
    let operations := map (read_operation partitionKey) ids in
    results ← await (SentBulk container operations true)
                    (items_bulk P container operations true);
    data ← lift (map_from (entry_of operations) 0 results);
    mret (new {| DatabaseResponse.data := Some (DatabaseResponse.Entries data);
                 DatabaseResponse.message := None;
                 DatabaseResponse.status := JNum 207 |}).

(** [this[container].items.query(query).getAsyncIterator()]: the pages
    that the iterator is going to hand out, and how it ends. *)
Definition send_iterate (container : Container) (query : string)
  : M P (list (list Item) * option Err) :=
  fun s =>
    let '(pages, failure, w) := query_iterate P container query (world s) in
    (Returned (pages, failure),
     {| world := w; log := log s ++ [SentIterate container query] |}).

(** The shared tail of the list methods: run the query on a container and
    push the resources of every page of its iterator onto [data]. *)
Definition collect (container : Container) (query : string) : M P Response :=
  queryIterator ← send_iterate container query;
  data ← for_await queryIterator (fun result data => data ++ result)%list [];
  mret (new {| DatabaseResponse.data := Some (DatabaseResponse.Items data);
               DatabaseResponse.message := None;
               DatabaseResponse.status := JUndefined |}).

Definition getLanguage (id : string) : M P Response :=
  getOne Metadata "Language" id.

Definition getLanguages (options : CountOptions) : M P Response :=
  let '{| project := project |} := options in
  let query := "SELECT * FROM metadata WHERE metadata.type = 'Language'" in
  let query :=
    if truthy project
    then query +:+ project_clause "metadata" (interpolate project)
    else query in
  collect Metadata query.

Definition getLexeme (language id : string) : M P Response :=
  getOne Data language id.

Definition getLexemes (options : CountOptions) : M P Response :=
  let '{| language := language; project := project |} := options in
  let query := "SELECT * FROM data WHERE data.type = 'Lexeme'" in
  let query :=
    if truthy language
    then query +:+ " AND data.language.id = '" +:+ interpolate language +:+ "'"
    else query in
  let query :=
    if truthy project
    then query +:+ project_clause "data" (interpolate project)
    else query in
  collect Data query.

Definition getProject (id : string) : M P Response :=
  getOne Metadata "Project" id.

(** The query text that [getProjects] sends. *)
Definition projects_query (options : ProjectsOptions) : string :=
  let query := "SELECT * FROM metadata WHERE metadata.type = 'Project'" in
  match user options with
  | Some user =>
      if truthy user then
        query +:+ " AND (" +:+ LF +:+
        "          metadata.permissions.public = true" +:+ LF +:+
        "          OR" +:+ LF +:+
        "          ARRAY_CONTAINS(metadata.permissions.owners, '" +:+ interpolate user +:+ "')" +:+ LF +:+
        "          OR" +:+ LF +:+
        "          ARRAY_CONTAINS(metadata.permissions.editors, '" +:+ interpolate user +:+ "')" +:+ LF +:+
        "          OR" +:+ LF +:+
        "          ARRAY_CONTAINS(metadata.permissions.viewers, '" +:+ interpolate user +:+ "')" +:+ LF +:+
        "        )"
      else
        query +:+ " AND metadata.permissions.public = true"
  | None => query
  end.

Definition getProjects (options : ProjectsOptions) : M P Response :=
  collect Metadata (projects_query options).

Definition getReference (id : string) : M P Response :=
  getOne Metadata "BibliographicReference" id.

Definition getReferences : M P Response :=
  let query := "SELECT * FROM metadata WHERE metadata.type = 'BibliographicReference'" in
  collect Metadata query.

(** The public operations as values, and what calling one does.  The
    methods under "DEV METHODS" other than [delete] are not part of this
    development.  [delete] returns [undefined], which is [None]. *)
Inductive Call :=
| CallDelete
| CallAddOne (container : Container) (data : Item)
| CallAddMany (container : Container) (partitionKey : string) (items : list Item)
| CallCount (type : string) (options : CountOptions)
| CallGetOne (container : Container) (partition id : string)
| CallGetMany (container : Container) (partitionKey : string) (ids : list string)
| CallGetLanguage (id : string)
| CallGetLanguages (options : CountOptions)
| CallGetLexeme (language id : string)
| CallGetLexemes (options : CountOptions)
| CallGetProject (id : string)
| CallGetProjects (options : ProjectsOptions)
| CallGetReference (id : string)
| CallGetReferences.

Definition perform (call : Call) : M P (option Response) :=
  match call with
  | CallDelete => delete;; mret None
  | CallAddOne container data => Some <$> addOne container data
  | CallAddMany container partitionKey items => Some <$> addMany container partitionKey items
  | CallCount type options => Some <$> count type options
  | CallGetOne container partition id => Some <$> getOne container partition id
  | CallGetMany container partitionKey ids => Some <$> getMany container partitionKey ids
  | CallGetLanguage id => Some <$> getLanguage id
  | CallGetLanguages options => Some <$> getLanguages options
  | CallGetLexeme language id => Some <$> getLexeme language id
  | CallGetLexemes options => Some <$> getLexemes options
  | CallGetProject id => Some <$> getProject id
  | CallGetProjects options => Some <$> getProjects options
  | CallGetReference id => Some <$> getReference id
  | CallGetReferences => Some <$> getReferences
  end.

(** *** The methods as a caller reaches them: containers by name

    The methods above take the container as one of the two that exist.
    A caller names it by a string, and the source goes through
    [this[container]]: behind the names [data] and [metadata] there is a
    container; whatever else a name finds on the instance (nothing, the
    client, the database, a field, a method) has neither [items] nor
    [item], so that going on from it is a [TypeError]. *)
Definition this_container (container : string) : option Container :=
  if bool_decide (container = "data") then Some Data
  else if bool_decide (container = "metadata") then Some Metadata
  else None.

(** [this[container].items] and [this[container].item(...)]. *)
Definition container_of (container : string) : M P Container :=
  match this_container container with
  | Some c => mret c
  | None => throw (TypeError "Cannot read properties of undefined (reading 'items')")
  end.

(** [container === `data` ? ... : ...] on a container name: every name
    but [data] takes the second branch. *)
Definition keyed_as (container : string) : Container :=
  if bool_decide (container = "data") then Data else Metadata.

Definition seedOne_by_name (container : string) (data : Item) : M P ItemResponse :=
  validated data;;
  c ← container_of container;
  '(data, promise) ← send_create c data;
  settle promise.

Definition seedMany_by_name (container : string) (count : nat) (data : Item)
  : M P (list OperationResponse) :=
  validated data;;
  let copy := {| id := None; fields := fields data |} in
  let partitionKey := partition_of (keyed_as container) copy in
  let operations := replicate count (create_operation copy) in
  let batches := chunk operations bulkLimit in
  step ← for_of batches
    (fun batch results =>
       c ← container_of container;
       seedMany_body c partitionKey batch results)
    [];
  match step with
  | Return impossible => Empty_set_rect _ impossible
  | Next results => mret results
  end.

(** The [catch] block of [addOne], on the error [err] and the data object
    as it is by then. *)
Definition addOne_caught (data : Item) (err : Exn) : M P Response :=
  let message :=
    if strict_eq_num (exn_code err) 409
    then Some ("Item with ID " +:+ interpolate (id data) +:+ " already exists.")
    else exn_message err in
  mret (new {| DatabaseResponse.data := None;
               DatabaseResponse.message := message;
               DatabaseResponse.status := exn_code err |}).

(** In [addOne] the container is reached inside the [try] block: where
    the name has no container, the [TypeError] is caught like any error
    of the create call, the data object being as the caller gave it. *)
Definition addOne_by_name (container : string) (data : Item) : M P Response :=
  match this_container container with
  | Some c => addOne c data
  | None =>
      validated data;;
      try_catch
        (c ← container_of container;
         '(_, promise) ← send_create c data;
         response ← settle promise;
         mret (new {| DatabaseResponse.data := DatabaseResponse.OneItem <$> resource response;
                      DatabaseResponse.message := None;
                      DatabaseResponse.status := JNum (statusCode response) |}))
        (addOne_caught data)
  end.

(** In [addMany] the container is reached when a batch is sent. *)
Definition addMany_by_name (container : string) (partitionKey : string)
    (items : list Item) : M P Response :=
  let operations := map create_operation items in
  let batches := chunk operations bulkLimit in
  step ← for_of batches
    (fun batch results =>
       c ← container_of container;
       addMany_body c partitionKey batch results)
    [];
  match step with
  | Return response => mret response
  | Next results =>
      let data := map res_resourceBody results in
      mret (new {| DatabaseResponse.data := Some (DatabaseResponse.Bodies data);
                   DatabaseResponse.message := None;
                   DatabaseResponse.status := JNum 201 |})
  end.

Definition getOne_by_name (container : string) (partition id : string) : M P Response :=
  c ← container_of container;
  getOne c partition id.

(** In [getMany] the limit is tested before the container is reached. *)
Definition getMany_by_name (container : string) (partitionKey : string)
    (ids : list string) : M P Response :=
  if bool_decide (Pos.to_nat bulkLimit < length ids) then
    mret (new {| DatabaseResponse.data := None;
                 DatabaseResponse.message :=
                   Some ("You can only retrieve " +:+ pretty (Npos bulkLimit)
                         +:+ " items at a time.");
                 DatabaseResponse.status := JNum 400 |})
  else
    c ← container_of container;
    getMany c partitionKey ids.

(** *** The dev methods: setup, clearContainer and clear *)

Definition setup : M P unit :=
  console_info ("Setting up the " +:+ DQUOTE +:+ dbName this +:+ DQUOTE +:+ " database.");;
  await (SentCreateDatabase (dbName this)) (databases_createIfNotExists P (dbName this));;
  await (SentCreateContainer "data" "/language/id")
        (containers_createIfNotExists P "data" "/language/id");;
  await (SentCreateContainer "metadata" "/type")
        (containers_createIfNotExists P "metadata" "/type");;
  console_info ("Setup complete for the " +:+ DQUOTE +:+ dbName this +:+ DQUOTE
                +:+ " database.").

(** [item.language.id] in [clearContainer] has not the [?.] of
    [seedMany]: on a document without a language, reading the [id] is a
    [TypeError].  Whether a document has a language is a parameter, as
    the key is. *)
Context (has_language : Item -> bool).

(** [item => ({ id, operationType: `Delete`, partitionKey })] with
    [partitionKey = container === `data` ? item.language.id : item.type]. *)
Definition delete_operation (container : string) (item : Item) : Outcome Operation :=
  let operation partitionKey :=
    {| op_id := id item;
       op_operationType := Delete;
       op_partitionKey := Some partitionKey;
       op_resourceBody := None |} in
  match keyed_as container with
  | Data =>
      if has_language item then Returned (operation (partition_of Data item))
      else Thrown (TypeError "Cannot read properties of undefined (reading 'id')")
  | Metadata => Returned (operation (partition_of Metadata item))
  end.

(** The body of the loop of [clearContainer]: make the operations of one
    batch and send them; the answer is not looked at. *)
Definition clearContainer_body (container : string) (batch : list Item) (_ : unit)
  : M P (Step Empty_set unit) :=
  operations ← lift (map_from (fun _ => delete_operation container) 0 batch);
  c ← container_of container;
  await (SentBulk c operations false) (items_bulk P c operations false);;
  mret (Next tt).

Definition clearContainer (container : string) : M P unit :=
  c ← container_of container;
  resources ← await (SentReadAll c) (items_readAll P c);
  let batches := chunk resources bulkLimit in
  for_of batches (clearContainer_body container) tt;;
  mret tt.

(** A call of [clearContainer] as it stands between its [await]s; see
    [clearContainer_call_finish] for its agreement with the method. *)
Fixpoint clearContainer_loop (container : string) (batches : list (list Item))
  : Task P unit :=
  match batches with
  | [] => Finished tt
  | batch :: batches =>
      match map_from (fun _ => delete_operation container) 0 batch,
            this_container container with
      | Thrown e, _ => Failed e
      | Returned operations, None =>
          Failed (TypeError "Cannot read properties of undefined (reading 'items')")
      | Returned operations, Some c =>
          awaiting (SentBulk c operations false) (items_bulk P c operations false)
                   (fun _ => clearContainer_loop container batches)
      end
  end.

Definition clearContainer_call (container : string) : Task P unit :=
  match this_container container with
  | None => Failed (TypeError "Cannot read properties of undefined (reading 'items')")
  | Some c =>
      awaiting (SentReadAll c) (items_readAll P c)
               (fun resources => clearContainer_loop container (chunk resources bulkLimit))
  end.

(** [clear({ silent = true } = {})]: the two calls of [clearContainer]
    are made one after the other, and [Promise.all] waits for both. *)
Definition clear (silent : bool) (arrival : list bool) : M P unit :=
  (if negb silent
   then console_info ("Clearing the " +:+ DQUOTE +:+ dbName this +:+ DQUOTE +:+ " database.")
   else mret tt);;
  let data := clearContainer_call "data" in
  let metadata := clearContainer_call "metadata" in
  start data;;
  start metadata;;
  Promise_all data metadata arrival;;
  if negb silent
  then console_info ("The " +:+ DQUOTE +:+ dbName this +:+ DQUOTE
                     +:+ " database has been cleared.")
  else mret tt.

(** What a public method hands back: nothing ([clear], [clearContainer],
    [delete], [setup]), a response, or what the provider answered
    ([seedOne], [seedMany]). *)
Inductive Answer :=
| Nothing
| Answered (response : Response)
| RawItem (response : ItemResponse)
| RawList (results : list OperationResponse).

(** The public methods of the class, with the arguments of a caller;
    with [clear] comes the order in which the answers to the two calls of
    [clearContainer] arrive. *)
Inductive Request :=
| Clear (silent : bool) (arrival : list bool)
| ClearContainer (container : string)
| Delete_db
| SeedOne (container : string) (data : Item)
| SeedMany (container : string) (count : nat) (data : Item)
| Setup
| AddOne (container : string) (data : Item)
| AddMany (container : string) (partitionKey : string) (items : list Item)
| Count (type : string) (options : CountOptions)
| GetOne (container : string) (partition id : string)
| GetMany (container : string) (partitionKey : string) (ids : list string)
| GetLanguage (id : string)
| GetLanguages (options : CountOptions)
| GetLexeme (language id : string)
| GetLexemes (options : CountOptions)
| GetProject (id : string)
| GetProjects (options : ProjectsOptions)
| GetReference (id : string)
| GetReferences.

Definition handle (request : Request) : M P Answer :=
  match request with
  | Clear silent arrival => clear silent arrival;; mret Nothing
  | ClearContainer container => clearContainer container;; mret Nothing
  | Delete_db => delete;; mret Nothing
  | SeedOne container item => RawItem <$> seedOne_by_name container item
  | SeedMany container n item => RawList <$> seedMany_by_name container n item
  | Setup => setup;; mret Nothing
  | AddOne container item => Answered <$> addOne_by_name container item
  | AddMany container partitionKey items =>
      Answered <$> addMany_by_name container partitionKey items
  | Count type options => Answered <$> count type options
  | GetOne container partition id => Answered <$> getOne_by_name container partition id
  | GetMany container partitionKey ids =>
      Answered <$> getMany_by_name container partitionKey ids
  | GetLanguage id => Answered <$> getLanguage id
  | GetLanguages options => Answered <$> getLanguages options
  | GetLexeme language id => Answered <$> getLexeme language id
  | GetLexemes options => Answered <$> getLexemes options
  | GetProject id => Answered <$> getProject id
  | GetProjects options => Answered <$> getProjects options
  | GetReference id => Answered <$> getReference id
  | GetReferences => Answered <$> getReferences
  end.

End Methods.
End Database.

(** ** A provider to run the methods on

    An in-memory store that answers the way the service does on the paths
    the methods exercise: a create with a used id is rejected with 409, a
    batch with such an item reports 207 and stores nothing, a read of a
    missing id answers 404.  It serves as the concrete provider of the
    examples below; the theorems are about every provider. *)
Module Memory.

Definition store : Type := list (Container * Item).

Definition stored (c : Container) (i : string) (w : store) : option Item :=
  snd <$> List.find (fun d => bool_decide (d.1 = c /\ id d.2 = Some i)) w.

Definition conflict : Err :=
  {| err_code := JNum 409;
     err_message := Some "Entity with the specified id already exists in the system." |}.

Definition create (c : Container) (item : Item) (w : store)
  : Item * Settled ItemResponse * store :=
  let item' :=
    match id item with
    | Some _ => item
    | None => {| id := Some ("doc-" +:+ pretty (length w)); fields := fields item |}
    end in
  match id item' ≫= (fun i => stored c i w) with
  | Some _ => (item', Rejected conflict, w)
  | None => (item', Resolved {| resource := Some item'; statusCode := 201 |},
             w ++ [(c, item')])
  end.

Definition clashes (c : Container) (w : store) (op : Operation) : bool :=
  match op_resourceBody op with
  | Some {| id := Some i |} => bool_decide (is_Some (stored c i w))
  | _ => false
  end.

Definition batch (c : Container) (ops : list Operation) (key : string) (w : store)
  : Settled BatchResponse * store :=
  if existsb (clashes c w) ops then
    (Resolved {| code := 207;
                 result := map (fun op =>
                                  {| res_statusCode := if clashes c w op then 409 else 424;
                                     res_resourceBody := None |}) ops |},
     w)
  else
    (Resolved {| code := 200;
                 result := map (fun op =>
                                  {| res_statusCode := 201;
                                     res_resourceBody := op_resourceBody op |}) ops |},
     w ++ omap (fun op => pair c <$> op_resourceBody op) ops).

(** Is the document [d] of the store deleted by one of the operations? *)
Definition deleted (c : Container) (ops : list Operation) (d : Container * Item) : bool :=
  bool_decide (d.1 = c)
  && existsb (fun op => bool_decide (op_operationType op = Delete
                                     /\ is_Some (op_id op) /\ op_id op = id d.2)) ops.

Definition bulk (c : Container) (ops : list Operation) (continueOnError : bool)
    (w : store) : Settled (list OperationResponse) * store :=
  (Resolved (map (fun op =>
                    match op_id op ≫= (fun i => stored c i w) with
                    | Some item =>
                        match op_operationType op with
                        | Delete => {| res_statusCode := 204; res_resourceBody := None |}
                        | _ => {| res_statusCode := 200; res_resourceBody := Some item |}
                        end
                    | None => {| res_statusCode := 404; res_resourceBody := None |}
                    end) ops),
   List.filter (fun d => negb (deleted c ops d)) w).

Definition read (c : Container) (i partition : string) (w : store)
  : Settled ItemResponse * store :=
  match stored c i w with
  | Some item => (Resolved {| resource := Some item; statusCode := 200 |}, w)
  | None => (Resolved {| resource := None; statusCode := 404 |}, w)
  end.

Definition held (c : Container) (w : store) : list Item :=
  snd <$> List.filter (fun d => bool_decide (d.1 = c)) w.

(** The databases and containers are there from the start: creating one
    that exists changes nothing. *)
Definition createIfNotExists (w : store) : Settled unit * store := (Resolved tt, w).

(** The provider; [rows] is how it answers an aggregate query over [n]
    documents (the service answers with one row). *)
Definition provider (rows : nat -> list Row) : Provider :=
  {| World := store;
     items_create := create;
     items_batch := batch;
     items_bulk := bulk;
     item_read := read;
     query_fetchAll := fun c query w => (Resolved (rows (length (held c w))), w);
     query_iterate := fun c query w => ([held c w], None, w);
     items_readAll := fun c w => (Resolved (held c w), w);
     database_delete := fun w => (Resolved tt, []);
     databases_createIfNotExists := fun id => createIfNotExists;
     containers_createIfNotExists := fun id partitionKey => createIfNotExists |}.

Definition one_row (n : nat) : list Row := [{| dollar1 := JNum (Z.of_nat n) |}].
Definition no_row (n : nat) : list Row := [].

(** A validator: a document needs a [type]. *)
Definition validate (item : Item) : option Err :=
  if existsb (fun f => bool_decide (f.1 = "type")) (fields item) then None
  else Some {| err_code := JUndefined;
               err_message := Some "The type property is required." |}.

Definition types (type : string) : option Container :=
  if bool_decide (type = "Lexeme") then Some Data
  else if bool_decide (type ∈ ["Language"; "Project"; "BibliographicReference"])
       then Some Metadata
       else None.

Definition test_db : Database.t :=
  {| Database.dbName := "test"; Database.types := types |}.

Definition production_db : Database.t :=
  {| Database.dbName := "digitallinguistics"; Database.types := types |}.

(** A lexeme with the given id. *)
Definition lexeme (i : string) : Item :=
  {| id := Some i; fields := [("type", JStr "Lexeme")] |}.

Definition start (w : store) : St (provider one_row) :=
  Build_St (provider one_row) w [].

End Memory.

(** A provider that is out of reach: every call is rejected with 503. *)
Module Offline.

Definition unavailable : Err :=
  {| err_code := JNum 503; err_message := Some "Service Unavailable" |}.

Definition provider : Provider :=
  {| World := unit;
     items_create := fun c item w => (item, Rejected unavailable, w);
     items_batch := fun c ops key w => (Rejected unavailable, w);
     items_bulk := fun c ops continueOnError w => (Rejected unavailable, w);
     item_read := fun c i partition w => (Rejected unavailable, w);
     query_fetchAll := fun c query w => (Rejected unavailable, w);
     query_iterate := fun c query w => ([], Some unavailable, w);
     items_readAll := fun c w => (Rejected unavailable, w);
     database_delete := fun w => (Rejected unavailable, w);
     databases_createIfNotExists := fun id w => (Rejected unavailable, w);
     containers_createIfNotExists := fun id partitionKey w => (Rejected unavailable, w) |}.

Definition start : St provider := Build_St provider tt [].

(** The same with another error, such as one that has no [code]: a
    connection that drops. *)
Definition dropped : Err :=
  {| err_code := JUndefined; err_message := Some "socket hang up" |}.

Definition provider_with (e : Err) : Provider :=
  {| World := unit;
     items_create := fun c item w => (item, Rejected e, w);
     items_batch := fun c ops key w => (Rejected e, w);
     items_bulk := fun c ops continueOnError w => (Rejected e, w);
     item_read := fun c i partition w => (Rejected e, w);
     query_fetchAll := fun c query w => (Rejected e, w);
     query_iterate := fun c query w => ([], Some e, w);
     items_readAll := fun c w => (Rejected e, w);
     database_delete := fun w => (Rejected e, w);
     databases_createIfNotExists := fun id w => (Rejected e, w);
     containers_createIfNotExists := fun id partitionKey w => (Rejected e, w) |}.

End Offline.

(** A provider that answers every batch by [batch_answer] and every bulk
    request by [bulk_answer], and is out of reach otherwise. *)
Module Stub.

Definition provider (batch_answer : list Operation -> Settled BatchResponse)
    (bulk_answer : Settled (list OperationResponse)) : Provider :=
  {| World := unit;
     items_create := fun c item w => (item, Rejected Offline.unavailable, w);
     items_batch := fun c ops key w => (batch_answer ops, w);
     items_bulk := fun c ops continueOnError w => (bulk_answer, w);
     item_read := fun c i partition w => (Rejected Offline.unavailable, w);
     query_fetchAll := fun c query w => (Rejected Offline.unavailable, w);
     query_iterate := fun c query w => ([], Some Offline.unavailable, w);
     items_readAll := fun c w => (Rejected Offline.unavailable, w);
     database_delete := fun w => (Rejected Offline.unavailable, w);
     databases_createIfNotExists := fun id w => (Rejected Offline.unavailable, w);
     containers_createIfNotExists :=
       fun id partitionKey w => (Rejected Offline.unavailable, w) |}.

(** Every operation of the batch failed as a dependency: a 207. *)
Definition partial_failure (ops : list Operation) : Settled BatchResponse :=
  Resolved {| code := 207;
              result := map (fun _ => {| res_statusCode := 424;
                                         res_resourceBody := None |}) ops |}.

(** Full batches are taken, a batch that is not full is rejected. *)
Definition full_only (ops : list Operation) : Settled BatchResponse :=
  if bool_decide (length ops = 100)
  then Resolved {| code := 200; result := [] |}
  else Rejected Offline.unavailable.

End Stub.

(** ** The vocabulary of the statements *)

(** The entry that [getMany] makes of a requested id and the provider's
    result for it. *)
Definition entry (id : string) (result : OperationResponse) : DatabaseResponse.Entry :=
  {| DatabaseResponse.entry_data := res_resourceBody result;
     DatabaseResponse.entry_id := Some id;
     DatabaseResponse.entry_status := res_statusCode result |}.

(** The provider takes the batches of an addMany one after the other,
    from world [w] to world [w'], and answers each with a code other than
    207; [responses] are its answers in that order. *)
Inductive accepted (P : Provider) (container : Container) (partitionKey : string)
  : list (list Operation) -> World P -> list BatchResponse -> World P -> Prop :=
| accepted_nil w : accepted P container partitionKey [] w [] w
| accepted_cons b bs w r w1 rs w2 :
    items_batch P container b partitionKey w = (Resolved r, w1) ->
    code r <> 207%Z ->
    accepted P container partitionKey bs w1 rs w2 ->
    accepted P container partitionKey (b :: bs) w (r :: rs) w2.

(** The error [e] is the rejection of a request to the store: that request
    is the last thing that happened between [s] and [s']. *)
Definition rejected_request {P : Provider} (s s' : St P) (e : Exn) : Prop :=
  exists err l d, e = Raised err /\ log s' = log s ++ l ++ [d] /\ to_store d = true.

(** The container name in a request, and the document that a request has
    [validate] look at. *)
Definition named (request : Database.Request) : option string :=
  match request with
  | Database.ClearContainer name
  | Database.SeedOne name _ | Database.SeedMany name _ _ | Database.AddOne name _
  | Database.AddMany name _ _ | Database.GetOne name _ _ | Database.GetMany name _ _ =>
      Some name
  | _ => None
  end.

Definition validated_by (request : Database.Request) : option Item :=
  match request with
  | Database.SeedOne _ item | Database.SeedMany _ _ item | Database.AddOne _ item => Some item
  | _ => None
  end.

(** count and the four list methods. *)
Definition listing (request : Database.Request) : bool :=
  match request with
  | Database.Count _ _ | Database.GetLanguages _ | Database.GetLexemes _
  | Database.GetProjects _ | Database.GetReferences => true
  | _ => false
  end.

(** For the requests whose response hands on the resource of one provider
    call (the create of addOne, the read of getOne and of the point
    getters): how that call settles in world [w].  [None] for the other
    requests, and where the name has no container. *)
Definition point_settled (P : Provider) (request : Database.Request) (w : World P)
  : option (Settled ItemResponse) :=
  match request with
  | Database.AddOne name item =>
      c ← Database.this_container name; Some (items_create P c item w).1.2
  | Database.GetOne name partition id =>
      c ← Database.this_container name; Some (item_read P c id partition w).1
  | Database.GetLanguage id => Some (item_read P Metadata id "Language" w).1
  | Database.GetLexeme language id => Some (item_read P Data id language w).1
  | Database.GetProject id => Some (item_read P Metadata id "Project" w).1
  | Database.GetReference id => Some (item_read P Metadata id "BibliographicReference" w).1
  | _ => None
  end.

(** The invariant of the spec's NormalizedResponse, for the response [r]
    to a request made in state [s].  A status is present, and the response
    is of one of three kinds, told apart by what happened:
    - a success: no message, and data;
    - a point call that the provider resolved without a resource (a read
      that finds nothing): no message, no data, the status code of the
      provider;
    - a failure: no data; it is an addOne whose create did not resolve, or
      a getMany over the limit, with status 400 and a message.
    So a message is present only on a failure, and data is absent without
    a failure only where the provider had none to give. *)
Definition normalized {P : Provider} (request : Database.Request) (s : St P)
    (r : DatabaseResponse.t) : Prop :=
  DatabaseResponse.status r <> JUndefined
  /\ ((DatabaseResponse.message r = None /\ is_Some (DatabaseResponse.data r))
      \/ (DatabaseResponse.message r = None /\ DatabaseResponse.data r = None
          /\ exists response,
              point_settled P request (world s) = Some (Resolved response)
              /\ resource response = None
              /\ DatabaseResponse.status r = JNum (statusCode response))
      \/ (DatabaseResponse.data r = None
          /\ ((exists name item,
                  request = Database.AddOne name item
                  /\ forall response,
                      point_settled P request (world s) <> Some (Resolved response))
              \/ (exists name key ids,
                    request = Database.GetMany name key ids
                    /\ 100 < length ids
                    /\ is_Some (DatabaseResponse.message r)
                    /\ DatabaseResponse.status r = JNum 400)))).

(** A call fails, if it does, with an error that [Q] holds of, whatever
    world the answers to its requests come from. *)
Fixpoint fails_with {P A} (Q : Exn -> Prop) (t : Task P A) : Prop :=
  match t with
  | Finished _ => True
  | Failed e => Q e
  | Awaiting _ call resume => forall w, fails_with Q (resume (call w).1)
  end.

(** The error [e] is one that the provider rejects a request of
    clearContainer with: the reading of all documents of a container, or
    the bulk request of a batch of delete operations. *)
Definition rejected_clearing (P : Provider) (e : Exn) : Prop :=
  exists err c w,
    e = Raised err
    /\ ((items_readAll P c w).1 = Rejected err
        \/ exists operations, (items_bulk P c operations false w).1 = Rejected err).

(** The delete operation that clearContainer makes of a document of
    container [c]. *)
Definition deletion (partition_of : Container -> Item -> string) (c : Container)
    (item : Item) : Operation :=
  {| op_id := id item;
     op_operationType := Delete;
     op_partitionKey := Some (partition_of c item);
     op_resourceBody := None |}.

(** The provider resolves the bulk requests one after the other, from
    world [w] to world [w'], with whatever results. *)
Inductive bulk_resolved (P : Provider) (c : Container)
  : list (list Operation) -> World P -> World P -> Prop :=
| bulk_resolved_nil w : bulk_resolved P c [] w w
| bulk_resolved_cons operations rest w results w1 w2 :
    items_bulk P c operations false w = (Resolved results, w1) ->
    bulk_resolved P c rest w1 w2 ->
    bulk_resolved P c (operations :: rest) w w2.

(** A bulk request of delete operations that does not go on past a failure. *)
Definition bulk_delete (d : Dispatch) : Prop :=
  exists c operations,
    d = SentBulk c operations false
    /\ Forall (fun op => op_operationType op = Delete) operations.

(** A call sends nothing but requests that [Q] holds of. *)
Fixpoint sends_only {P A} (Q : Dispatch -> Prop) (t : Task P A) : Prop :=
  match t with
  | Awaiting d call resume => Q d /\ forall w, sends_only Q (resume (call w).1)
  | _ => True
  end.

(** Once its pending request is answered, a call sends nothing but
    requests that [Q] holds of. *)
Definition resumes_with {P A} (Q : Dispatch -> Prop) (t : Task P A) : Prop :=
  match t with
  | Awaiting _ call resume => forall w, sends_only Q (resume (call w).1)
  | _ => True
  end.

(** The provider answers the batches one after the other, from world [w]
    to world [w'], with whatever code; [responses] are its answers. *)
Inductive answered (P : Provider) (container : Container) (partitionKey : string)
  : list (list Operation) -> World P -> list BatchResponse -> World P -> Prop :=
| answered_nil w : answered P container partitionKey [] w [] w
| answered_cons b bs w r w1 rs w2 :
    items_batch P container b partitionKey w = (Resolved r, w1) ->
    answered P container partitionKey bs w1 rs w2 ->
    answered P container partitionKey (b :: bs) w (r :: rs) w2.

(** A request that reads from the store and writes nothing. *)
Definition read_request (d : Dispatch) : bool :=
  match d with
  | SentRead _ _ _ | SentFetchAll _ _ | SentIterate _ _ | SentReadAll _ => true
  | SentBulk _ operations _ =>
      forallb (fun op => bool_decide (op_operationType op = Read)) operations
  | _ => false
  end.

(** The calls that are meant to read: all but delete, addOne and addMany. *)
Definition read_call (call : Database.Call) : bool :=
  match call with
  | Database.CallDelete | Database.CallAddOne _ _ | Database.CallAddMany _ _ _ => false
  | _ => true
  end.

(** The container that a list method queries. *)
Definition listed_in (call : Database.Call) : option Container :=
  match call with
  | Database.CallGetLexemes _ => Some Data
  | Database.CallGetLanguages _ | Database.CallGetProjects _
  | Database.CallGetReferences => Some Metadata
  | _ => None
  end.

(** What a call may add to the log, path by path. *)
Definition footprint (validate : Item -> option Err) (this : Database.t)
    (call : Database.Call) (l : list Dispatch) : Prop :=
  match call with
  | Database.CallDelete =>
      if bool_decide (Database.dbName this = "digitallinguistics") then l = []
      else exists line tail,
          l = ConsoleInfo line :: SentDeleteDatabase :: tail
          /\ (tail = [] \/ exists line', tail = [ConsoleInfo line'])
  | Database.CallAddOne c item =>
      match validate item with
      | Some _ => l = []
      | None => l = [SentCreate c item]
      end
  | Database.CallAddMany c key items =>
      exists n,
        l = map (fun batch => SentBatch c batch key)
                (take n (chunk (map Database.create_operation items) Database.bulkLimit))
  | Database.CallCount type options =>
      match Database.types this type with
      | None => l = []
      | Some c => l = [SentFetchAll c (Database.count_query (Some c) type options)]
      end
  | Database.CallGetOne c partition id => l = [SentRead c id partition]
  | Database.CallGetMany c key ids =>
      if decide (100 < length ids) then l = []
      else l = [SentBulk c (map (Database.read_operation key) ids) true]
  | Database.CallGetLanguage id => l = [SentRead Metadata id "Language"]
  | Database.CallGetLexeme language id => l = [SentRead Data id language]
  | Database.CallGetProject id => l = [SentRead Metadata id "Project"]
  | Database.CallGetReference id => l = [SentRead Metadata id "BibliographicReference"]
  | Database.CallGetLexemes _ => exists query, l = [SentIterate Data query]
  | Database.CallGetLanguages _ | Database.CallGetProjects _
  | Database.CallGetReferences => exists query, l = [SentIterate Metadata query]
  end.

(** * Properties *)

(** A first run: the same lexeme added twice to the in-memory store. *)
Example memory_add_twice :
  let db := Database.addOne (Memory.provider Memory.one_row) Memory.validate 200 in
  (db Data (Memory.lexeme "a") (Memory.start [])).1
  = Returned (DatabaseResponse.mk (Some (DatabaseResponse.OneItem (Memory.lexeme "a")))
                                  None (JNum 201))
  /\ (db Data (Memory.lexeme "a") (Memory.start [(Data, Memory.lexeme "a")])).1
     = Returned (DatabaseResponse.mk None (Some "Item with ID a already exists.") (JNum 409)).
Proof. split; reflexivity. Qed.

(** ** The chunker *)

Section ChunkFacts.
Context {T : Type}.
Implicit Types (items : list T) (size fuel : nat).

Lemma chunk_go_nil fuel size : chunk_go fuel ([] : list T) size = [].
Proof. by destruct fuel. Qed.

Lemma chunk_go_fuel_irrelevant fuel fuel' items size :
  0 < size -> length items <= fuel -> length items <= fuel' ->
  chunk_go fuel items size = chunk_go fuel' items size.
Proof.
  intros Hsize. revert fuel' items.
  induction fuel as [|fuel IH]; intros fuel' items Hlen Hlen'.
  - destruct items; [by destruct fuel' | simpl in Hlen; lia].
  - destruct items as [|x items]; [by destruct fuel' |].
    destruct fuel' as [|fuel']; [simpl in Hlen'; lia |].
    cbn [chunk_go]. f_equal.
    apply IH; rewrite length_drop; simpl in *; lia.
Qed.

(** The length of the input is enough fuel: more of it changes nothing. *)
Lemma chunk_go_fuel fuel items size :
  0 < size -> length items <= fuel ->
  chunk_go fuel items size = chunk_go (length items) items size.
Proof. intros. by apply chunk_go_fuel_irrelevant. Qed.

Lemma chunk_go_concat fuel items size :
  0 < size -> length items <= fuel -> concat (chunk_go fuel items size) = items.
Proof.
  intros Hsize. revert items.
  induction fuel as [|fuel IH]; intros items Hlen.
  - destruct items; [done | simpl in Hlen; lia].
  - destruct items as [|x items]; [done |].
    cbn [chunk_go concat]. rewrite IH.
    + apply take_drop.
    + rewrite length_drop. simpl in *. lia.
Qed.

(** The [i]-th chunk is the [i]-th window of [size] elements, and there
    are chunks exactly as long as windows start inside the input. *)
Lemma chunk_go_lookup fuel items size i :
  0 < size -> length items <= fuel ->
  chunk_go fuel items size !! i
  = if decide (i * size < length items)
    then Some (take size (drop (i * size) items))
    else None.
Proof.
  intros Hsize. revert items i.
  induction fuel as [|fuel IH]; intros items i Hlen.
  - destruct items; [| simpl in Hlen; lia].
    cbn [chunk_go length]. rewrite lookup_nil. case_decide; [lia | done].
  - destruct items as [|x items].
    { cbn [chunk_go length]. rewrite lookup_nil. case_decide; [lia | done]. }
    cbn [chunk_go]. destruct i as [|i].
    + cbn [lookup list_lookup]. rewrite Nat.mul_0_l, drop_0.
      case_decide; [done | simpl in *; lia].
    + rewrite lookup_cons_ne_0 by done. cbn [pred].
      rewrite IH by (rewrite length_drop; simpl in *; lia).
      rewrite length_drop, drop_drop.
      replace (size + i * size) with (S i * size) by lia.
      repeat case_decide; try done; lia.
Qed.

Lemma chunk_go_length fuel items size :
  0 < size -> length items <= fuel ->
  length (chunk_go fuel items size) * size < length items + size
  /\ length items <= length (chunk_go fuel items size) * size.
Proof.
  intros Hsize Hlen.
  pose proof (chunk_go_lookup fuel items size) as Hlook.
  set (cs := chunk_go fuel items size) in *.
  split.
  - destruct (length cs) as [|n] eqn:Hn; [lia |].
    specialize (Hlook n Hsize Hlen).
    destruct (lookup_lt_is_Some_2 cs n) as [c Hc]; [lia |].
    rewrite Hc in Hlook. case_decide; [lia | done].
  - specialize (Hlook (length cs) Hsize Hlen).
    rewrite (lookup_ge_None_2 cs (length cs)) in Hlook by lia.
    case_decide; [done | lia].
Qed.

Lemma chunk_concat items (size : positive) : concat (chunk items size) = items.
Proof. apply chunk_go_concat; [apply Pos2Nat.is_pos | done]. Qed.

Lemma chunk_lookup items (size : positive) i c :
  chunk items size !! i = Some c ->
  c = take (Pos.to_nat size) (drop (i * Pos.to_nat size) items)
  /\ 1 <= length c <= Pos.to_nat size
  /\ (S i < length (chunk items size) -> length c = Pos.to_nat size).
Proof.
  pose proof (Pos2Nat.is_pos size) as Hsize.
  intros Hc. unfold chunk in *.
  pose proof (chunk_go_length (length items) items (Pos.to_nat size) Hsize
                (le_n _)) as [Hlt Hge].
  rewrite chunk_go_lookup in Hc by (done || lia).
  case_decide as Hi; [| done]. injection Hc as <-.
  split; [done |].
  rewrite length_take, length_drop. split; [lia |].
  intros Hnext.
  apply (Nat.mul_le_mono_r _ _ (Pos.to_nat size)) in Hnext.
  lia.
Qed.

End ChunkFacts.

(** C9 (chunker, against the spec's contract).  For every sequence and
    every positive size: the chunks concatenate back to the sequence; the
    [i]-th chunk is the window of [size] elements that starts at position
    [i * size], so the order is the original one; every chunk has between
    1 and [size] elements and every chunk but the last has exactly [size];
    and the empty sequence has no chunk at all. *)
Theorem chunk_contract {T : Type} (items : list T) (size : positive) :
  concat (chunk items size) = items
  /\ (forall i c, chunk items size !! i = Some c ->
        c = take (Pos.to_nat size) (drop (i * Pos.to_nat size) items)
        /\ 1 <= length c <= Pos.to_nat size
        /\ (S i < length (chunk items size) -> length c = Pos.to_nat size))
  /\ chunk ([] : list T) size = [].
Proof.
  split; [apply chunk_concat |].
  split; [apply chunk_lookup | reflexivity].
Qed.

(** C9 at a concrete input: five elements in chunks of two. *)
Lemma chunk_contract_witness :
  chunk [1; 2; 3; 4; 5] 2 !! 2 = Some [5]
  /\ [5] = take 2 (drop (2 * 2) [1; 2; 3; 4; 5])
  /\ chunk [1; 2; 3; 4; 5] 2 !! 0 = Some [1; 2]
  /\ (1 < length (chunk [1; 2; 3; 4; 5] 2) -> length [1; 2] = 2).
Proof.
  destruct (chunk_contract [1; 2; 3; 4; 5] 2) as (_ & H & _).
  destruct (H 2 [5] eq_refl) as (Hlast & _).
  destruct (H 0 [1; 2] eq_refl) as (_ & _ & Hfull).
  split; [reflexivity |]. split; [exact Hlast |]. split; [reflexivity |].
  intros Hlt. apply Hfull. vm_compute. lia.
Defined.

(** ** Running the methods *)

Ltac run :=
  unfold mbind, M_bind, mret, M_ret, fmap, M_fmap, throw, lift, await,
         console_info, try_catch; cbn [world log fst snd].

(** Settle a goal [call = ?result] about a closed call by running it. *)
Ltac by_running :=
  lazymatch goal with
  | |- ?call = _ =>
      let v := eval vm_compute in call in
      transitivity v; [vm_compute; reflexivity | reflexivity]
  end.

Lemma St_eta {P} (s : St P) : {| world := world s; log := log s |} = s.
Proof. by destruct s. Qed.

(** One turn of a [for ... of] loop. *)
Lemma for_of_cons {P X R S} (x : X) (xs : list X)
    (body : X -> S -> M P (Step R S)) (acc : S) (s : St P) :
  for_of (x :: xs) body acc s
  = match body x acc s with
    | (Returned (Return r), s') => (Returned (Return r), s')
    | (Returned (Next acc'), s') => for_of xs body acc' s'
    | (Thrown e, s') => (Thrown e, s')
    end.
Proof.
  cbn [for_of]. run. by destruct (body x acc s) as [[[r | acc'] | e] s'].
Qed.

(** What awaiting a provider call does, by how the call settles. *)
Lemma await_settled {P A} (d : Dispatch) (call : World P -> Settled A * World P)
    (s : St P) (p : Settled A) (w : World P) :
  call (world s) = (p, w) ->
  await d call s
  = (match p with Resolved a => Returned a | Rejected e => Thrown (Raised e) end,
     {| world := w; log := log s ++ [d] |}).
Proof. unfold await. intros ->. by destruct p. Qed.

(** ** addMany *)

Section AddMany.
Context (P : Provider) (defaultStatus : Z).
Context (container : Container) (partitionKey : string).

Local Abbreviation Sent := (fun operations => SentBatch container operations partitionKey).
Local Abbreviation body := (Database.addMany_body P defaultStatus container partitionKey).

(** One turn of the loop of [addMany]. *)
Lemma addMany_body_settled b acc s p w :
  items_batch P container b partitionKey (world s) = (p, w) ->
  body b acc s
  = (match p with
     | Resolved r =>
         Returned
           (if bool_decide (code r = 207%Z)
            then Return (DatabaseResponse.mk
                           (Some (DatabaseResponse.RawResults (result r)))
                           None (JNum 207))
            else Next (acc ++ result r))
     | Rejected e => Thrown (Raised e)
     end,
     {| world := w; log := log s ++ [Sent b] |}).
Proof.
  intros Hb. unfold Database.addMany_body. unfold mbind, M_bind.
  rewrite (await_settled _ _ _ _ _ Hb).
  destruct p as [r | e]; [| done]. by case_bool_decide.
Qed.

Lemma for_of_accepted pre rest w responses w' acc l :
  accepted P container partitionKey pre w responses w' ->
  for_of (pre ++ rest) body acc {| world := w; log := l |}
  = for_of rest body (acc ++ concat (map result responses))
      {| world := w'; log := l ++ map Sent pre |}.
Proof.
  intros Hacc. revert acc l.
  induction Hacc as [w | b bs w r w1 rs w2 Hb Hcode _ IH]; intros acc l.
  - cbn [app map concat]. by rewrite !app_nil_r.
  - cbn [app]. rewrite for_of_cons.
    rewrite (addMany_body_settled _ _ _ (Resolved r) w1) by done.
    rewrite bool_decide_eq_false_2 by done.
    rewrite IH. cbn [map concat world log]. by rewrite <- !(assoc_L (++)).
Qed.

(** Whatever the provider does, the batches that leave are an initial
    stretch of the list, in its order, and nothing else leaves. *)
Lemma for_of_log batches acc s :
  exists n, n <= length batches
    /\ log (for_of batches body acc s).2 = log s ++ map Sent (take n batches).
Proof.
  revert acc s. induction batches as [|b bs IH]; intros acc s.
  - exists 0. split; [done |]. cbn. by rewrite app_nil_r.
  - rewrite for_of_cons.
    destruct (items_batch P container b partitionKey (world s)) as [p w1] eqn:Hb.
    rewrite (addMany_body_settled _ _ _ _ _ Hb).
    destruct p as [r | e].
    + case_bool_decide.
      * exists 1. split; [simpl; lia |]. done.
      * match goal with |- context [for_of bs _ ?a ?s1] =>
          destruct (IH a s1) as (n & Hn & ->) end.
        exists (S n). split; [simpl; lia |]. cbn [log take map].
        by rewrite <- (assoc_L (++)).
    + exists 1. split; [simpl; lia |]. done.
Qed.

(** C1 (addMany stops at the first partial failure).  The operations are
    cut into consecutive chunks of 1 to 100 operations that concatenate
    back to the operations; whatever happens, the batches that leave are
    the first [n] chunks in their order; and when the chunks before chunk
    [b] were answered with codes other than 207 and [b] is answered with
    207, addMany returns [{ data: <the raw results of b>, status: 207 }]
    and the batches that left are exactly those chunks and [b]: no chunk
    after [b] is sent. *)
Theorem addMany_fail_fast (items : list Item) (s : St P) :
  let operations := map Database.create_operation items in
  let batches := chunk operations Database.bulkLimit in
  let sent := fun batch => SentBatch container batch partitionKey in
  concat batches = operations
  /\ Forall (fun batch => 1 <= length batch <= 100) batches
  /\ (exists n, n <= length batches /\
        log (Database.addMany P defaultStatus container partitionKey items s).2
        = log s ++ map sent (take n batches))
  /\ (forall pre b post responses w r w',
        batches = pre ++ b :: post ->
        accepted P container partitionKey pre (world s) responses w ->
        items_batch P container b partitionKey w = (Resolved r, w') ->
        code r = 207%Z ->
        Database.addMany P defaultStatus container partitionKey items s
        = (Returned (DatabaseResponse.mk
                       (Some (DatabaseResponse.RawResults (result r)))
                       None (JNum 207)),
           {| world := w'; log := log s ++ map sent (pre ++ [b]) |})).
Proof.
  intros operations batches sent.
  split; [apply chunk_concat |]. split; [| split].
  - apply Forall_lookup. intros i c Hc.
    destruct (chunk_lookup _ _ i c Hc) as (_ & Hlen & _).
    change (Pos.to_nat Database.bulkLimit) with 100 in Hlen. done.
  - unfold Database.addMany. fold operations batches. unfold mbind, M_bind.
    destruct (for_of_log batches [] s) as (n & Hn & Hlog).
    exists n. split; [done |].
    destruct (for_of batches body [] s) as [[[r | results] | e] s1]; done.
  - intros pre b post responses w r w' Hsplit Hacc Hb Hcode.
    unfold Database.addMany. fold operations batches. unfold mbind, M_bind.
    rewrite Hsplit. rewrite <- (St_eta s) at 1.
    rewrite (for_of_accepted _ _ _ _ _ _ _ Hacc).
    rewrite for_of_cons.
    rewrite (addMany_body_settled _ _ _ (Resolved r) w') by done.
    rewrite bool_decide_eq_true_2 by done.
    unfold mret, M_ret. cbn [log]. by rewrite map_app, (assoc_L (++)).
Qed.

(** C2 (addMany, full success).  When the provider answers every chunk
    with a code other than 207, addMany sends every chunk, in order, and
    returns [{ data, status: 201 }] where [data] lists the [resourceBody]
    of every per-operation result, chunk after chunk in the order of the
    chunks. *)
Theorem addMany_all_created (items : list Item) (s : St P)
    (responses : list BatchResponse) (w' : World P) :
  let batches := chunk (map Database.create_operation items) Database.bulkLimit in
  accepted P container partitionKey batches (world s) responses w' ->
  Database.addMany P defaultStatus container partitionKey items s
  = (Returned (DatabaseResponse.mk
                 (Some (DatabaseResponse.Bodies
                          (map res_resourceBody (concat (map result responses)))))
                 None (JNum 201)),
     {| world := w';
        log := log s ++ map (fun batch => SentBatch container batch partitionKey) batches |}).
Proof.
  intros batches Hacc.
  unfold Database.addMany. fold batches. unfold mbind, M_bind.
  rewrite <- (app_nil_r batches) at 1. rewrite <- (St_eta s) at 1.
  by rewrite (for_of_accepted _ _ _ _ _ _ _ Hacc).
Qed.

End AddMany.

(** A run of C1 on the in-memory provider: 250 lexemes, of which the one
    with id [w150] is already stored.  The first chunk is created, the
    second reports 207, the third never leaves. *)
Lemma addMany_fail_fast_witness :
  let items := map (fun i : nat => Memory.lexeme ("w" +:+ pretty i)) (seq 0 250) in
  let s := Memory.start [(Data, Memory.lexeme "w150")] in
  let out := Database.addMany (Memory.provider Memory.one_row) 200 Data "Lexeme" items s in
  (exists results,
      out.1 = Returned (DatabaseResponse.mk (Some (DatabaseResponse.RawResults results))
                                            None (JNum 207))
      /\ length results = 100)
  /\ map (fun d => match d with SentBatch _ ops _ => length ops | _ => 0 end) (log out.2)
     = [100; 100].
Proof.
  intros items s out.
  pose proof (addMany_fail_fast (Memory.provider Memory.one_row) 200 Data "Lexeme" items s)
    as (_ & _ & _ & H).
  set (batches := chunk (map Database.create_operation items) Database.bulkLimit) in H.
  assert (Hsplit : batches = take 1 batches ++ default [] (batches !! 1) :: drop 2 batches)
    by (vm_compute; reflexivity).
  eassert (Hacc : accepted _ Data "Lexeme" (take 1 batches) (world s) _ _).
  { change (take 1 batches) with [default [] (batches !! 0)].
    eapply accepted_cons; [by_running | vm_compute; discriminate | apply accepted_nil]. }
  lazymatch type of Hacc with
  | accepted _ _ _ _ _ _ ?w =>
      eassert (Hb : items_batch (Memory.provider Memory.one_row) Data
                      (default [] (batches !! 1)) "Lexeme" w = (Resolved _, _))
        by by_running
  end.
  specialize (H _ _ _ _ _ _ _ Hsplit Hacc Hb eq_refl).
  subst out. rewrite H. split.
  - eexists. split; [reflexivity | vm_compute; reflexivity].
  - vm_compute. reflexivity.
Defined.

(** A run of C2 on the in-memory provider: 250 new lexemes leave in three
    batches of 100, 100 and 50, and come back as the 250 bodies, in order. *)
Lemma addMany_all_created_witness :
  let items := map (fun i : nat => Memory.lexeme ("w" +:+ pretty i)) (seq 0 250) in
  let s := Memory.start [] in
  let out := Database.addMany (Memory.provider Memory.one_row) 200 Data "Lexeme" items s in
  (exists bodies,
      out.1 = Returned (DatabaseResponse.mk (Some (DatabaseResponse.Bodies bodies))
                                            None (JNum 201))
      /\ bodies = map Some items)
  /\ map (fun d => match d with SentBatch _ ops _ => length ops | _ => 0 end) (log out.2)
     = [100; 100; 50].
Proof.
  intros items s out.
  eassert (Hacc : accepted (Memory.provider Memory.one_row) Data "Lexeme"
                    (chunk (map Database.create_operation items) Database.bulkLimit)
                    (world s) _ _).
  { let batches := eval vm_compute in
        (chunk (map Database.create_operation items) Database.bulkLimit) in
    change (chunk (map Database.create_operation items) Database.bulkLimit) with batches.
    repeat (eapply accepted_cons; [by_running | vm_compute; discriminate |]).
    apply accepted_nil. }
  subst out. rewrite (addMany_all_created _ _ _ _ _ _ _ _ Hacc). split.
  - eexists. split; [reflexivity | vm_compute; reflexivity].
  - vm_compute. reflexivity.
Defined.

(** ** getMany *)

Section GetMany.
Context (P : Provider) (defaultStatus : Z).
Context (container : Container) (partitionKey : string).

Local Abbreviation operations_of ids := (map (Database.read_operation partitionKey) ids).

(** Mapping the results from index [i] on: an entry per result as long as
    there is an operation at the same index, a [TypeError] at the first
    result that has none. *)
Lemma map_from_entry_of (ids : list string) (results : list OperationResponse) (i : nat) :
  map_from (Database.entry_of (operations_of ids)) i results
  = if decide (i + length results <= length ids \/ results = [])
    then Returned (zip_with entry (drop i ids) results)
    else Thrown (TypeError "Cannot read properties of undefined (reading 'id')").
Proof.
  revert i. induction results as [|res results IH]; intros i.
  - cbn [map_from]. rewrite zip_with_nil_r. case_decide; [done | tauto].
  - cbn [map_from]. unfold Database.entry_of at 1. destruct res as [sc body].
    rewrite list_lookup_fmap.
    destruct (ids !! i) as [id|] eqn:Hid; cbn [fmap option_fmap option_map].
    + rewrite IH. apply lookup_lt_Some in Hid as Hlt.
      rewrite (drop_S _ _ _ Hid). cbn [zip_with length].
      destruct results as [|res' results].
      * rewrite !decide_True by (simpl; lia || tauto). done.
      * repeat case_decide; try done; simpl in *;
          repeat match goal with H : _ \/ _ |- _ => destruct H end;
          try discriminate; try lia;
          exfalso; match goal with H : ¬ _ |- _ => apply H end; left; lia.
    + apply lookup_ge_None in Hid. rewrite decide_False; [done |].
      simpl. intros [? | ?]; [lia | discriminate].
Qed.

(** C3 (getMany, limit).  More than 100 ids: the response is
    [{ message: "You can only retrieve 100 items at a time.", status: 400 }]
    and neither the provider's world nor the log of what was sent
    changes.  100 ids or fewer: one bulk request leaves, with one [Read]
    operation per id. *)
Theorem getMany_limit (ids : list string) (s : St P) :
  (100 < length ids ->
   Database.getMany P defaultStatus container partitionKey ids s
   = (Returned (DatabaseResponse.mk None
                  (Some "You can only retrieve 100 items at a time.") (JNum 400)),
      s))
  /\ (length ids <= 100 ->
      log (Database.getMany P defaultStatus container partitionKey ids s).2
      = log s ++ [SentBulk container (operations_of ids) true]).
Proof.
  unfold Database.getMany.
  change (Pos.to_nat Database.bulkLimit) with 100.
  split; intros Hlen.
  - by rewrite bool_decide_eq_true_2 by done.
  - rewrite bool_decide_eq_false_2 by lia. unfold mbind, M_bind.
    destruct (items_bulk P container (operations_of ids) true (world s))
      as [p w] eqn:Hbulk.
    rewrite (await_settled _ _ _ _ _ Hbulk).
    destruct p as [results | e]; [| done].
    unfold lift. by destruct (map_from _ 0 results).
Qed.

(** C4 (getMany, one entry per id).  With 100 ids or fewer, a response that
    getMany returns has status 207; and when the provider answers the bulk
    request with one result per operation, getMany returns, with status
    207, the list of [{ data, id, status }] that pairs the [i]-th id with
    the body and the status code of the [i]-th result: one entry per id,
    in the order of the ids. *)
Theorem getMany_entries (ids : list string) (s : St P) :
  length ids <= 100 ->
  (forall r s',
      Database.getMany P defaultStatus container partitionKey ids s = (Returned r, s') ->
      DatabaseResponse.status r = JNum 207)
  /\ (forall results w',
        items_bulk P container (operations_of ids) true (world s) = (Resolved results, w') ->
        length results = length ids ->
        let entries := zip_with entry ids results in
        Database.getMany P defaultStatus container partitionKey ids s
        = (Returned (DatabaseResponse.mk (Some (DatabaseResponse.Entries entries))
                                         None (JNum 207)),
           {| world := w';
              log := log s ++ [SentBulk container (operations_of ids) true] |})
        /\ length entries = length ids
        /\ map DatabaseResponse.entry_id entries = map Some ids
        /\ (forall i id, ids !! i = Some id ->
              exists result, results !! i = Some result
                             /\ entries !! i = Some (entry id result))).
Proof.
  intros Hlen. unfold Database.getMany.
  change (Pos.to_nat Database.bulkLimit) with 100.
  rewrite bool_decide_eq_false_2 by lia. unfold mbind, M_bind.
  split.
  - intros r s'.
    destruct (items_bulk P container (operations_of ids) true (world s))
      as [p w] eqn:Hbulk.
    rewrite (await_settled _ _ _ _ _ Hbulk).
    destruct p as [results | e]; [| done].
    unfold lift. destruct (map_from _ 0 results); [| done].
    unfold mret, M_ret. by intros [= <- _].
  - intros results w' Hbulk Hres. set (entries := zip_with entry ids results).
    rewrite (await_settled _ _ _ _ _ Hbulk).
    unfold lift. rewrite map_from_entry_of, decide_True by (left; lia).
    rewrite drop_0. split; [done |].
    assert (Hentries : length entries = length ids).
    { unfold entries. rewrite length_zip_with. lia. }
    split; [done |]. split.
    + clear Hbulk Hentries Hlen. subst entries. revert results Hres.
      induction ids as [|id ids' IH]; intros [|res results] Hres;
        simpl in *; try done.
      f_equal. apply IH. lia.
    + intros i id Hid.
      destruct (lookup_lt_is_Some_2 results i) as [res Hres'].
      { apply lookup_lt_Some in Hid. lia. }
      exists res. split; [done |].
      unfold entries. rewrite lookup_zip_with, Hid. cbn. by rewrite Hres'.
Qed.

End GetMany.

(** C3 on the in-memory provider: 101 ids are refused and nothing leaves;
    100 ids leave as one bulk request of 100 operations. *)
Lemma getMany_limit_witness :
  let getMany := Database.getMany (Memory.provider Memory.one_row) 200 Data "Lexeme" in
  let s := Memory.start [] in
  (100 < length (map pretty (seq 0 101))
   /\ getMany (map pretty (seq 0 101)) s
      = (Returned (DatabaseResponse.mk None
                     (Some "You can only retrieve 100 items at a time.") (JNum 400)),
         s))
  /\ (length (map pretty (seq 0 100)) <= 100
      /\ map (fun d => match d with SentBulk _ ops _ => length ops | _ => 0 end)
             (log (getMany (map pretty (seq 0 100)) s).2)
         = [100]).
Proof.
  intros getMany s.
  assert (H101 : 100 < length (map (pretty : nat -> string) (seq 0 101)))
    by (vm_compute; lia).
  assert (H100 : length (map (pretty : nat -> string) (seq 0 100)) <= 100)
    by (vm_compute; lia).
  split; (split; [done |]).
  - exact (proj1 (getMany_limit _ 200 Data "Lexeme" _ s) H101).
  - subst getMany.
    rewrite (proj2 (getMany_limit _ 200 Data "Lexeme" _ s) H100).
    vm_compute. reflexivity.
Defined.

(** C4 on the in-memory provider: of the three requested ids, [b] is not
    stored; the response has status 207 and three entries, the second one
    with status 404 and no body. *)
Lemma getMany_entries_witness :
  let s := Memory.start [(Data, Memory.lexeme "a"); (Data, Memory.lexeme "c")] in
  length ["a"; "b"; "c"] <= 100
  /\ (Database.getMany (Memory.provider Memory.one_row) 200 Data "Lexeme" ["a"; "b"; "c"] s).1
     = Returned
         (DatabaseResponse.mk
            (Some (DatabaseResponse.Entries
                     [DatabaseResponse.Build_Entry (Some (Memory.lexeme "a")) (Some "a") 200;
                      DatabaseResponse.Build_Entry None (Some "b") 404;
                      DatabaseResponse.Build_Entry (Some (Memory.lexeme "c")) (Some "c") 200]))
            None (JNum 207)).
Proof.
  intros s.
  assert (Hlen : length ["a"; "b"; "c"] <= 100) by (simpl; lia).
  split; [done |].
  destruct (getMany_entries (Memory.provider Memory.one_row) 200 Data "Lexeme"
              ["a"; "b"; "c"] s Hlen) as [_ H].
  edestruct H as (-> & _); [reflexivity | reflexivity | reflexivity].
Defined.

(** ** The list methods *)

Lemma string_app_assoc (s1 s2 s3 : string) :
  (s1 +:+ s2) +:+ s3 = s1 +:+ (s2 +:+ s3).
Proof.
  induction s1 as [|a s1 IH]; [done |].
  change (String a ((s1 +:+ s2) +:+ s3) = String a (s1 +:+ s2 +:+ s3)).
  by rewrite IH.
Qed.

Lemma string_length_app (s1 s2 : string) :
  String.length (s1 +:+ s2) = String.length s1 + String.length s2.
Proof.
  induction s1 as [| a s1 IH]; [done |].
  change (S (String.length (s1 +:+ s2)) = S (String.length s1 + String.length s2)).
  by rewrite IH.
Qed.

Section Collect.
Context (P : Provider) (defaultStatus : Z).

Lemma foldl_push (pages : list (list Item)) (data : list Item) :
  foldl (fun acc page => acc ++ page) data pages = data ++ concat pages.
Proof.
  revert data. induction pages as [|page pages IH]; intros data; cbn [foldl concat].
  - by rewrite app_nil_r.
  - by rewrite IH, (assoc_L (++)).
Qed.

(** What a list method does with its query: one request, and either the
    resources of all pages in order or the iterator's rejection. *)
Lemma collect_run (container : Container) (query : string) (s : St P) :
  Database.collect P defaultStatus container query s
  = let '(pages, failure, w) := query_iterate P container query (world s) in
    (match failure with
     | Some e => Thrown (Raised e)
     | None => Returned (DatabaseResponse.mk (Some (DatabaseResponse.Items (concat pages)))
                                             None (JNum defaultStatus))
     end,
     {| world := w; log := log s ++ [SentIterate container query] |}).
Proof.
  unfold Database.collect, Database.send_iterate, for_await.
  unfold mbind, M_bind, mret, M_ret, throw.
  destruct (query_iterate P container query (world s)) as [[pages failure] w].
  cbn [fst snd]. destruct failure; [done |]. by rewrite foldl_push.
Qed.

Lemma collect_log (container : Container) (query : string) (s : St P) :
  log (Database.collect P defaultStatus container query s).2
  = log s ++ [SentIterate container query].
Proof.
  rewrite collect_run.
  by destruct (query_iterate P container query (world s)) as [[pages failure] w].
Qed.

(** C5 (getProjects, the user option).  getProjects sends one query to the
    metadata container.  Without a [user] key the query is the base query
    on the type alone; with a [user] key whose value is falsy it is the
    base query and [permissions.public = true]; with a non-empty user id
    [u] it is the base query and the disjunction of
    [permissions.public = true] with [ARRAY_CONTAINS] of [u] in the
    owners, the editors and the viewers. *)
Theorem getProjects_query (s : St P) :
  let base := "SELECT * FROM metadata WHERE metadata.type = 'Project'" in
  let sent := fun options =>
    log (Database.getProjects P defaultStatus options s).2 in
  sent {| Database.user := None |} = log s ++ [SentIterate Metadata base]
  /\ (forall v, truthy v = false ->
        sent {| Database.user := Some v |}
        = log s ++ [SentIterate Metadata
                      (base +:+ " AND metadata.permissions.public = true")])
  /\ (forall u, u <> "" ->
        sent {| Database.user := Some (Some u) |}
        = log s ++ [SentIterate Metadata
                      (base +:+ String.concat LF
                         [" AND (";
                          "          metadata.permissions.public = true";
                          "          OR";
                          "          ARRAY_CONTAINS(metadata.permissions.owners, '" +:+ u +:+ "')";
                          "          OR";
                          "          ARRAY_CONTAINS(metadata.permissions.editors, '" +:+ u +:+ "')";
                          "          OR";
                          "          ARRAY_CONTAINS(metadata.permissions.viewers, '" +:+ u +:+ "')";
                          "        )"])]).
Proof.
  intros base sent. subst sent. unfold Database.getProjects.
  split; [| split].
  - by rewrite collect_log.
  - intros v Hv. rewrite collect_log.
    unfold Database.projects_query. cbn [Database.user]. by rewrite Hv.
  - intros u Hu. rewrite collect_log.
    unfold Database.projects_query. cbn [Database.user truthy interpolate].
    rewrite bool_decide_eq_false_2 by done. cbn [negb].
    cbn [String.concat]. by rewrite !string_app_assoc.
Qed.

End Collect.

(** C5 on the in-memory provider, with the options of the spec's example:
    [{ user: '' }] and [{ user: 'u1' }]. *)
Lemma getProjects_query_witness :
  let sent := fun options =>
    log (Database.getProjects (Memory.provider Memory.one_row) 200 options
           (Memory.start [])).2 in
  (truthy (Some "") = false
   /\ sent {| Database.user := Some (Some "") |}
      = [SentIterate Metadata
           "SELECT * FROM metadata WHERE metadata.type = 'Project' AND metadata.permissions.public = true"])
  /\ ("u1" <> ""
      /\ sent {| Database.user := Some (Some "u1") |}
         = [SentIterate Metadata
              "SELECT * FROM metadata WHERE metadata.type = 'Project' AND (
          metadata.permissions.public = true
          OR
          ARRAY_CONTAINS(metadata.permissions.owners, 'u1')
          OR
          ARRAY_CONTAINS(metadata.permissions.editors, 'u1')
          OR
          ARRAY_CONTAINS(metadata.permissions.viewers, 'u1')
        )"]).
Proof.
  intros sent.
  destruct (getProjects_query (Memory.provider Memory.one_row) 200 (Memory.start []))
    as (_ & Hfalsy & Huser).
  assert (Hu : "u1" <> "") by discriminate.
  split; (split; [done |]).
  - exact (Hfalsy (Some "") eq_refl).
  - exact (Huser "u1" Hu).
Defined.

(** ** addOne *)

Section AddOne.
Context (P : Provider) (validate : Item -> option Err) (defaultStatus : Z).
Context (container : Container).

Local Abbreviation addOne := (Database.addOne P validate defaultStatus container).

(** addOne, step by step: validation, then the create request, then the
    response made of how the request settled. *)
Lemma addOne_run (data : Item) (s : St P) :
  addOne data s
  = match validate data with
    | Some e => (Thrown (Raised e), s)
    | None =>
        let '(data', settled, w) := items_create P container data (world s) in
        (Returned
           (DatabaseResponse.new defaultStatus
              match settled with
              | Resolved response =>
                  DatabaseResponse.mk (DatabaseResponse.OneItem <$> resource response)
                                      None (JNum (statusCode response))
              | Rejected e =>
                  DatabaseResponse.mk None
                    (if strict_eq_num (err_code e) 409
                     then Some ("Item with ID " +:+ interpolate (id data') +:+ " already exists.")
                     else err_message e)
                    (err_code e)
              end),
         {| world := w; log := log s ++ [SentCreate container data] |})
    end.
Proof.
  unfold Database.addOne, Database.validated, Database.send_create.
  unfold mbind, M_bind, throw.
  destruct (validate data) as [e |]; [done |].
  unfold mret at 1, M_ret at 1.
  destruct (items_create P container data (world s)) as [[data' settled] w].
  by destruct settled as [response | e].
Qed.

(** C6, as amended (addOne, a create that fails).  When [validate] accepts
    the data and the provider rejects the create with error [e], addOne
    returns the response made of [{ message, status: e.code }]: with code
    409 it is [{ message: "Item with ID <data.id> already exists.",
    status: 409 }], where [data.id] is read off the data object as the
    create call left it; with another code it carries the message of [e],
    and as its status the code of [e] when [e] has one, the default status
    of the response constructor when [e] has none.  Any other call of
    addOne with the same data that ends in a 409 with the same id yields
    that very response. *)
Theorem addOne_create_failure (data data' : Item) (e : Err) (s : St P) (w' : World P) :
  validate data = None ->
  items_create P container data (world s) = (data', Rejected e, w') ->
  exists r,
    addOne data s
    = (Returned r, {| world := w'; log := log s ++ [SentCreate container data] |})
    /\ (err_code e = JNum 409 ->
        r = DatabaseResponse.mk None
              (Some ("Item with ID " +:+ interpolate (id data') +:+ " already exists."))
              (JNum 409))
    /\ (err_code e <> JNum 409 ->
        r = DatabaseResponse.new defaultStatus
              (DatabaseResponse.mk None (err_message e) (err_code e))
        /\ (err_code e <> JUndefined ->
            r = DatabaseResponse.mk None (err_message e) (err_code e))
        /\ (err_code e = JUndefined ->
            r = DatabaseResponse.mk None (err_message e) (JNum defaultStatus)))
    /\ (forall s2 data2 e2 w2,
          items_create P container data (world s2) = (data2, Rejected e2, w2) ->
          err_code e = JNum 409 -> err_code e2 = JNum 409 -> id data2 = id data' ->
          (addOne data s2).1 = Returned r).
Proof.
  intros Hvalid Hcreate. eexists. split.
  { rewrite addOne_run, Hvalid, Hcreate. reflexivity. }
  split; [| split].
  - intros Hcode. by rewrite Hcode.
  - intros Hcode.
    assert (Hne : strict_eq_num (err_code e) 409 = false).
    { destruct (err_code e) as [| n |]; try done.
      cbn. apply bool_decide_eq_false_2. congruence. }
    rewrite Hne. split; [done |]. split.
    + intros Hdef. unfold DatabaseResponse.new. cbn.
      by destruct (err_code e).
    + intros Hnone. unfold DatabaseResponse.new. cbn. by rewrite Hnone.
  - intros s2 data2 e2 w2 Hcreate2 Hcode Hcode2 Hid.
    rewrite addOne_run, Hvalid, Hcreate2. cbn [fst].
    by rewrite Hcode, Hcode2, Hid.
Qed.

(** addOne and [validate]: a validation error is thrown to the caller and
    leaves the state as it was (nothing is sent), and once [validate]
    accepts the data addOne returns a response whatever the provider does. *)
Lemma addOne_throws_iff_invalid (data : Item) (s : St P) :
  (forall e, validate data = Some e -> addOne data s = (Thrown (Raised e), s))
  /\ (validate data = None ->
      exists r s', addOne data s = (Returned r, s')
                   /\ log s' = log s ++ [SentCreate container data]).
Proof.
  rewrite addOne_run. split.
  - by intros e ->.
  - intros ->.
    destruct (items_create P container data (world s)) as [[data' settled] w].
    by eexists _, _.
Qed.

End AddOne.

(** C6 on the in-memory provider: the lexeme [a] is already stored. *)
Lemma addOne_create_failure_witness :
  let addOne := Database.addOne (Memory.provider Memory.one_row) Memory.validate 200 Data in
  let conflict :=
    DatabaseResponse.mk None (Some "Item with ID a already exists.") (JNum 409) in
  let s := Memory.start [(Data, Memory.lexeme "a")] in
  Memory.validate (Memory.lexeme "a") = None
  /\ (addOne (Memory.lexeme "a") s).1 = Returned conflict
  /\ (addOne (Memory.lexeme "a") (addOne (Memory.lexeme "a") s).2).1 = Returned conflict.
Proof.
  intros addOne conflict s.
  destruct (addOne_create_failure (Memory.provider Memory.one_row) Memory.validate 200 Data
              (Memory.lexeme "a") (Memory.lexeme "a") Memory.conflict s
              [(Data, Memory.lexeme "a")] eq_refl eq_refl)
    as (r & Hrun & H409 & _ & Hagain).
  specialize (H409 eq_refl). cbn in H409. subst r.
  subst addOne. split; [reflexivity |]. split.
  - by rewrite Hrun.
  - apply (Hagain _ (Memory.lexeme "a") Memory.conflict [(Data, Memory.lexeme "a")]);
      reflexivity.
Defined.

(** C6 as the spec states it fails where the error has no code: a create
    that is rejected by a dropped connection comes back with the default
    status of the response constructor (here 200), which is not the code
    of the error. *)
Lemma codeless_rejection_gets_default_status :
  let outcome :=
    Database.addOne (Offline.provider_with Offline.dropped) Memory.validate 200 Data
      (Memory.lexeme "a") (Build_St (Offline.provider_with Offline.dropped) tt []) in
  outcome.1 = Returned (DatabaseResponse.mk None (Some "socket hang up") (JNum 200))
  /\ err_code Offline.dropped = JUndefined
  /\ ~ (exists r, outcome.1 = Returned r
                  /\ DatabaseResponse.status r = err_code Offline.dropped).
Proof.
  intros outcome.
  assert (H : outcome.1
              = Returned (DatabaseResponse.mk None (Some "socket hang up") (JNum 200)))
    by reflexivity.
  split; [exact H |]. split; [reflexivity |].
  rewrite H. by intros (r & [= <-] & [=]).
Qed.

(** ** count *)

Section Count.
Context (P : Provider) (defaultStatus : Z) (this : Database.t).

Local Abbreviation count := (Database.count P defaultStatus this).

Lemma count_run (type : string) (options : Database.CountOptions) (s : St P) :
  count type options s
  = match Database.types this type with
    | None =>
        (Thrown (TypeError "Cannot read properties of undefined (reading 'items')"), s)
    | Some c =>
        let query := Database.count_query (Some c) type options in
        let '(settled, w) := query_fetchAll P c query (world s) in
        (match settled with
         | Resolved [] =>
             Thrown (TypeError "Cannot read properties of undefined (reading '$1')")
         | Resolved (row :: _) =>
             Returned (DatabaseResponse.mk (Some (DatabaseResponse.Count (dollar1 row)))
                                           None (JNum defaultStatus))
         | Rejected e => Thrown (Raised e)
         end,
         {| world := w; log := log s ++ [SentFetchAll c query] |})
    end.
Proof.
  unfold Database.count.
  destruct (Database.types this type) as [c |]; [| done].
  unfold mbind, M_bind. cbn zeta.
  destruct (query_fetchAll P c _ (world s)) as [settled w] eqn:Hfetch.
  rewrite (await_settled _ _ _ _ _ Hfetch).
  destruct settled as [[| [count] rows] | e]; done.
Qed.

(** C10 (count needs a row).  A response comes back from count only when
    the type has a container and the aggregate query on it resolved with
    at least one row, whose [$1] is the count; and when the query resolves
    with no row at all, count throws a [TypeError] (after the request has
    left) and returns nothing, in particular no count of 0. *)
Theorem count_needs_a_row (type : string) (options : Database.CountOptions) (s : St P) :
  (forall r s',
      count type options s = (Returned r, s') ->
      exists c row rows,
        Database.types this type = Some c
        /\ query_fetchAll P c (Database.count_query (Some c) type options) (world s)
           = (Resolved (row :: rows), world s')
        /\ DatabaseResponse.data r = Some (DatabaseResponse.Count (dollar1 row)))
  /\ (forall c w',
        Database.types this type = Some c ->
        query_fetchAll P c (Database.count_query (Some c) type options) (world s)
        = (Resolved [], w') ->
        exists text,
          count type options s
          = (Thrown (TypeError text),
             {| world := w';
                log := log s ++ [SentFetchAll c (Database.count_query (Some c) type options)] |})).
Proof.
  rewrite count_run. split.
  - intros r s'. destruct (Database.types this type) as [c |]; [| done].
    cbn zeta.
    destruct (query_fetchAll P c _ (world s)) as [settled w] eqn:Hfetch.
    destruct settled as [[| row rows] | e]; try done.
    intros [= <- <-]. by exists c, row, rows.
  - intros c w' -> Hfetch. cbn zeta. rewrite Hfetch. by eexists.
Qed.

End Count.

(** C10 on the in-memory provider: with one aggregate row the count comes
    back; with a provider that answers the aggregate query with no row,
    count throws. *)
Lemma count_needs_a_row_witness :
  let options := {| Database.language := Some "fr"; Database.project := None |} in
  let s := Memory.start [(Data, Memory.lexeme "a")] in
  let rowless := Build_St (Memory.provider Memory.no_row) [(Data, Memory.lexeme "a")] [] in
  ((Database.count (Memory.provider Memory.one_row) 200 Memory.test_db "Lexeme" options s).1
   = Returned (DatabaseResponse.mk (Some (DatabaseResponse.Count (JNum 1))) None (JNum 200))
   /\ exists c row rows,
       query_fetchAll (Memory.provider Memory.one_row) c
         (Database.count_query (Some c) "Lexeme" options) (world s)
       = (Resolved (row :: rows), world s))
  /\ exists text,
      (Database.count (Memory.provider Memory.no_row) 200 Memory.test_db "Lexeme" options
         rowless).1
      = Thrown (TypeError text).
Proof.
  intros options s rowless. split.
  - split; [reflexivity |].
    destruct (count_needs_a_row (Memory.provider Memory.one_row) 200 Memory.test_db
                "Lexeme" options s) as [H _].
    edestruct (H _ _ eq_refl) as (c & row & rows & _ & Hfetch & _).
    by exists c, row, rows.
  - destruct (count_needs_a_row (Memory.provider Memory.no_row) 200 Memory.test_db
                "Lexeme" options rowless) as [_ H].
    destruct (H Data [(Data, Memory.lexeme "a")] eq_refl eq_refl) as [text ->].
    by exists text.
Defined.

(** ** Every call: what comes back, and what is thrown *)

Section Calls.
Context (P : Provider) (validate : Item -> option Err) (defaultStatus : Z).
Context (this : Database.t).

Local Abbreviation perform := (Database.perform P validate defaultStatus this).

Lemma await_thrown {A} (d : Dispatch) (call : World P -> Settled A * World P)
    (s s' : St P) (e : Exn) :
  to_store d = true -> await d call s = (Thrown e, s') -> rejected_request s s' e.
Proof.
  intros Hd. destruct (call (world s)) as [p w] eqn:Hcall.
  rewrite (await_settled _ _ _ _ _ Hcall).
  destruct p as [a | err]; [done |]. intros [= <- <-].
  by exists err, [], d.
Qed.

Lemma rejected_request_later (s0 s s' : St P) (e : Exn) (l : list Dispatch) :
  log s = log s0 ++ l -> rejected_request s s' e -> rejected_request s0 s' e.
Proof.
  intros Hl (err & l' & d & -> & Hlog & Hd).
  exists err, (l ++ l'), d. by rewrite Hlog, Hl, <- !(assoc_L (++)).
Qed.

Lemma fmap_run {A B} (f : A -> B) (m : M P A) (s : St P) :
  (f <$> m) s
  = match m s with
    | (Returned a, s') => (Returned (f a), s')
    | (Thrown e, s') => (Thrown e, s')
    end.
Proof. done. Qed.

(** *** delete *)

Lemma delete_run (s : St P) :
  Database.delete P this s
  = if bool_decide (Database.dbName this = "digitallinguistics") then
      (Thrown (GuardError
                 ("This error is here to guard against accidental deletion. Comment it out or delete the database manually if you really truly actually srsly for realzies do want to delete the "
                  +:+ Database.DQUOTE +:+ "digitallinguistics" +:+ Database.DQUOTE +:+ " database.")),
       s)
    else
      let deleting := ConsoleInfo ("Deleting the " +:+ Database.DQUOTE +:+ Database.dbName this
                                   +:+ Database.DQUOTE +:+ " database.") in
      let deleted := ConsoleInfo ("Database " +:+ Database.DQUOTE +:+ Database.dbName this
                                  +:+ Database.DQUOTE +:+ " successfully deleted.") in
      let '(settled, w) := database_delete P (world s) in
      match settled with
      | Resolved _ =>
          (Returned tt,
           {| world := w; log := log s ++ [deleting; SentDeleteDatabase; deleted] |})
      | Rejected e =>
          (Thrown (Raised e),
           {| world := w; log := log s ++ [deleting; SentDeleteDatabase] |})
      end.
Proof.
  unfold Database.delete. case_bool_decide; [done |].
  unfold mbind, M_bind, console_info, await. cbn [world log].
  destruct (database_delete P (world s)) as [[[] | e] w];
    cbn [world log]; by rewrite <- !(assoc_L (++)).
Qed.

(** *** getOne *)

Lemma getOne_run (container : Container) (partition id : string) (s : St P) :
  Database.getOne P defaultStatus container partition id s
  = let '(settled, w) := item_read P container id partition (world s) in
    (match settled with
     | Resolved response =>
         Returned (DatabaseResponse.mk (DatabaseResponse.OneItem <$> resource response)
                                       None (JNum (statusCode response)))
     | Rejected e => Thrown (Raised e)
     end,
     {| world := w; log := log s ++ [SentRead container id partition] |}).
Proof.
  unfold Database.getOne, mbind, M_bind.
  destruct (item_read P container id partition (world s)) as [settled w] eqn:Hread.
  rewrite (await_settled _ _ _ _ _ Hread). by destruct settled.
Qed.

Lemma getOne_outcome (container : Container) (partition id : string) (s : St P) :
  match Database.getOne P defaultStatus container partition id s with
  | (Returned r, _) =>
      exists res code, r = DatabaseResponse.mk res None (JNum code)
  | (Thrown e, s') => rejected_request s s' e
  end.
Proof.
  rewrite getOne_run.
  destruct (item_read P container id partition (world s)) as [[response | err] w].
  - by eexists _, _.
  - by eexists err, [], _.
Qed.

(** *** addMany *)

Lemma addMany_loop_outcome (container : Container) (partitionKey : string)
    (batches : list (list Operation)) (acc : list OperationResponse) (s : St P) :
  match for_of batches (Database.addMany_body P defaultStatus container partitionKey) acc s with
  | (Returned (Return r), _) =>
      exists results, r = DatabaseResponse.mk (Some (DatabaseResponse.RawResults results))
                                              None (JNum 207)
  | (Returned (Next _), _) => True
  | (Thrown e, s') => rejected_request s s' e
  end.
Proof.
  revert acc s. induction batches as [|b bs IH]; intros acc s; [done |].
  rewrite for_of_cons.
  destruct (items_batch P container b partitionKey (world s)) as [p w] eqn:Hb.
  rewrite (addMany_body_settled _ _ _ _ _ _ _ _ _ Hb).
  destruct p as [r | err].
  - case_bool_decide; [by eexists |].
    match goal with |- context [for_of bs _ ?a ?s1] =>
      specialize (IH a s1); destruct (for_of bs _ a s1) as [[[r' | acc'] | e] s'] end;
      try done.
    by eapply (rejected_request_later s _ s' e [SentBatch container b partitionKey]);
      [| exact IH].
  - by exists err, [], (SentBatch container b partitionKey).
Qed.

Lemma addMany_outcome (container : Container) (partitionKey : string)
    (items : list Item) (s : St P) :
  match Database.addMany P defaultStatus container partitionKey items s with
  | (Returned r, _) =>
      exists payload code, r = DatabaseResponse.mk (Some payload) None (JNum code)
  | (Thrown e, s') => rejected_request s s' e
  end.
Proof.
  unfold Database.addMany, mbind, M_bind.
  match goal with |- context [for_of ?bs _ ?a s] =>
    pose proof (addMany_loop_outcome container partitionKey bs a s) as H;
    destruct (for_of bs _ a s) as [[[r | results] | e] s'] end.
  - destruct H as [results ->]. by eexists _, _.
  - by eexists _, _.
  - done.
Qed.

(** *** getMany *)

Lemma getMany_outcome (container : Container) (partitionKey : string)
    (ids : list string) (s : St P) :
  match Database.getMany P defaultStatus container partitionKey ids s with
  | (Returned r, _) =>
      (100 < length ids /\ exists text, r = DatabaseResponse.mk None (Some text) (JNum 400))
      \/ (exists entries, r = DatabaseResponse.mk (Some (DatabaseResponse.Entries entries))
                                                  None (JNum 207))
  | (Thrown e, s') => rejected_request s s' e \/ exists text, e = TypeError text
  end.
Proof.
  unfold Database.getMany. change (Pos.to_nat Database.bulkLimit) with 100.
  case_bool_decide.
  - left. split; [done |]. by eexists.
  - unfold mbind, M_bind.
    match goal with |- context [await ?d ?call s] =>
      pose proof (await_thrown d call s) as Hthrown;
      destruct (await d call s) as [[results | e] s1] end.
    + unfold lift. rewrite map_from_entry_of.
      case_decide; [right; by eexists | right; by eexists].
    + left. by apply Hthrown.
Qed.

(** *** the list methods and count *)

Lemma collect_outcome (container : Container) (query : string) (s : St P) :
  match Database.collect P defaultStatus container query s with
  | (Returned r, _) =>
      exists items, r = DatabaseResponse.mk (Some (DatabaseResponse.Items items))
                                            None (JNum defaultStatus)
  | (Thrown e, s') => rejected_request s s' e
  end.
Proof.
  rewrite collect_run.
  destruct (query_iterate P container query (world s)) as [[pages [err |]] w].
  - by exists err, [], (SentIterate container query).
  - by eexists.
Qed.

Lemma count_outcome (type : string) (options : Database.CountOptions) (s : St P) :
  match Database.count P defaultStatus this type options s with
  | (Returned r, _) =>
      exists count, r = DatabaseResponse.mk (Some (DatabaseResponse.Count count))
                                            None (JNum defaultStatus)
  | (Thrown e, s') => rejected_request s s' e \/ exists text, e = TypeError text
  end.
Proof.
  rewrite count_run. destruct (Database.types this type) as [c |].
  - cbn zeta.
    destruct (query_fetchAll P c _ (world s)) as [[[| row rows] | err] w].
    + right. by eexists.
    + by eexists.
    + left. by eexists err, [], _.
  - right. by eexists.
Qed.


(** *** the response constructor *)

Lemma new_status_present (args : DatabaseResponse.t) :
  DatabaseResponse.status (DatabaseResponse.new defaultStatus args) <> JUndefined.
Proof. unfold DatabaseResponse.new. cbn. by destruct (DatabaseResponse.status args). Qed.

Ltac outcome_of lemma :=
  let H := fresh "H" in
  pose proof lemma as H; cbv beta in H;
  lazymatch type of H with
  | match ?run with _ => _ end =>
      let r := fresh "r" in let e := fresh "e" in let s1 := fresh "s1" in
      destruct run as [[r | e] s1]
  end.

End Calls.


(** Nor is a rejection of the provider turned into a response outside
    addOne: a point read on a provider that is out of reach throws. *)
Example rejected_read_is_thrown :
  (Database.perform Offline.provider Memory.validate 200 Memory.test_db
     (Database.CallGetOne Data "fr" "a") Offline.start).1
  = Thrown (Raised Offline.unavailable).
Proof. reflexivity. Qed.

(** * Further properties of the methods *)

(** ** count and the filters *)

Section Filters.
Context (P : Provider) (defaultStatus : Z) (this : Database.t).

(** A type that [this.types] does not know: count throws a [TypeError]
    before anything is sent; the state is as it was. *)
Theorem count_unknown_type (type : string) (options : Database.CountOptions) (s : St P) :
  Database.types this type = None ->
  exists text, Database.count P defaultStatus this type options s = (Thrown (TypeError text), s).
Proof. intros Htype. rewrite count_run, Htype. by eexists. Qed.

(** An empty filter value is no filter: count, getLexemes and getLanguages
    behave with [language: ''] or [project: ''] exactly as without that
    option. *)
Theorem empty_filters_are_ignored (type : string) (language project : option string)
    (s : St P) :
  (Database.count P defaultStatus this type
     {| Database.language := Some ""; Database.project := project |} s
   = Database.count P defaultStatus this type
       {| Database.language := None; Database.project := project |} s
   /\ Database.count P defaultStatus this type
        {| Database.language := language; Database.project := Some "" |} s
      = Database.count P defaultStatus this type
          {| Database.language := language; Database.project := None |} s)
  /\ (Database.getLexemes P defaultStatus
        {| Database.language := Some ""; Database.project := project |} s
      = Database.getLexemes P defaultStatus
          {| Database.language := None; Database.project := project |} s
      /\ Database.getLexemes P defaultStatus
           {| Database.language := language; Database.project := Some "" |} s
         = Database.getLexemes P defaultStatus
             {| Database.language := language; Database.project := None |} s)
  /\ Database.getLanguages P defaultStatus
       {| Database.language := language; Database.project := Some "" |} s
     = Database.getLanguages P defaultStatus
         {| Database.language := language; Database.project := None |} s.
Proof. repeat split; reflexivity. Qed.

(** getLanguages, getLexemes, getProjects and getReferences send one query
    to their container and hand its iterator's pages on as one list, page
    after page; when the iterator rejects, the error is thrown and the
    pages that had arrived are dropped. *)
Theorem list_methods_collect (validate : Item -> option Err) (call : Database.Call)
    (container : Container) (s : St P) :
  listed_in call = Some container ->
  exists query,
    forall pages failure w,
      query_iterate P container query (world s) = (pages, failure, w) ->
      Database.perform P validate defaultStatus this call s
      = (match failure with
         | Some e => Thrown (Raised e)
         | None =>
             Returned (Some (DatabaseResponse.new defaultStatus
                               (DatabaseResponse.mk
                                  (Some (DatabaseResponse.Items (concat pages)))
                                  None JUndefined)))
         end,
         {| world := w; log := log s ++ [SentIterate container query] |}).
Proof.
  destruct call as [| | | | | | | [language project] | | [language project] | | options | |];
    try done; intros [= <-];
    unfold Database.perform, Database.getLanguages, Database.getLexemes,
           Database.getProjects, Database.getReferences;
    (eexists; intros pages failure w Hiter;
     rewrite fmap_run, collect_run, Hiter; by destruct failure).
Qed.

End Filters.

(** ** addMany and getMany at their edges *)

Section Edges.
Context (P : Provider) (defaultStatus : Z).
Context (container : Container) (partitionKey : string).

(** Nothing to add: addMany sends nothing, leaves the state as it was and
    answers [{ data: [], status: 201 }]. *)
Example addMany_nothing_to_add (s : St P) :
  Database.addMany P defaultStatus container partitionKey [] s
  = (Returned (DatabaseResponse.mk (Some (DatabaseResponse.Bodies [])) None (JNum 201)), s).
Proof. reflexivity. Qed.

(** A batch call that is rejected ends addMany: the chunks before it were
    taken, the error of the provider is thrown, the results gathered so
    far are lost and no chunk after it is sent. *)
Theorem addMany_rejected_batch (items : list Item) (s : St P)
    (pre post : list (list Operation)) (b : list Operation)
    (responses : list BatchResponse) (w w' : World P) (e : Err) :
  chunk (map Database.create_operation items) Database.bulkLimit = pre ++ b :: post ->
  accepted P container partitionKey pre (world s) responses w ->
  items_batch P container b partitionKey w = (Rejected e, w') ->
  Database.addMany P defaultStatus container partitionKey items s
  = (Thrown (Raised e),
     {| world := w';
        log := log s ++ map (fun batch => SentBatch container batch partitionKey)
                            (pre ++ [b]) |}).
Proof.
  intros Hsplit Hacc Hb.
  unfold Database.addMany. unfold mbind, M_bind. rewrite Hsplit.
  rewrite <- (St_eta s) at 1.
  rewrite (for_of_accepted _ _ _ _ _ _ _ _ _ _ _ Hacc), for_of_cons.
  rewrite (addMany_body_settled _ _ _ _ _ _ _ (Rejected e) w') by done.
  cbn [log]. by rewrite map_app, (assoc_L (++)).
Qed.

(** getMany pairs ids and results by position and trusts the provider for
    their number: with fewer results than ids the entries stop with the
    results; with more results than ids the request has left and a
    [TypeError] is thrown. *)
Theorem getMany_result_count (ids : list string) (s : St P)
    (results : list OperationResponse) (w' : World P) :
  length ids <= 100 ->
  items_bulk P container (map (Database.read_operation partitionKey) ids) true (world s)
  = (Resolved results, w') ->
  exists text,
    Database.getMany P defaultStatus container partitionKey ids s
    = (if decide (length results <= length ids)
       then Returned (DatabaseResponse.mk
                        (Some (DatabaseResponse.Entries (zip_with entry ids results)))
                        None (JNum 207))
       else Thrown (TypeError text),
       {| world := w';
          log := log s ++ [SentBulk container
                             (map (Database.read_operation partitionKey) ids) true] |}).
Proof.
  intros Hlen Hbulk. eexists. unfold Database.getMany.
  change (Pos.to_nat Database.bulkLimit) with 100.
  rewrite bool_decide_eq_false_2 by lia. unfold mbind, M_bind.
  rewrite (await_settled _ _ _ _ _ Hbulk). unfold lift.
  rewrite map_from_entry_of, drop_0. cbn [Nat.add].
  destruct (decide (length results <= length ids)) as [Hle | Hgt].
  - by rewrite decide_True by by left.
  - rewrite decide_False; [done |].
    intros [? | ->]; [done | simpl in Hgt; lia].
Qed.

End Edges.

(** ** addOne, seedOne and delete *)

Section Writes.
Context (P : Provider) (validate : Item -> option Err) (defaultStatus : Z).
Context (this : Database.t).

(** A create that succeeds: addOne answers with the resource and the
    status code that the provider gave, and no message, after one create
    request. *)
Theorem addOne_created (container : Container) (data data' : Item)
    (response : ItemResponse) (s : St P) (w' : World P) :
  validate data = None ->
  items_create P container data (world s) = (data', Resolved response, w') ->
  Database.addOne P validate defaultStatus container data s
  = (Returned (DatabaseResponse.mk (DatabaseResponse.OneItem <$> resource response)
                                   None (JNum (statusCode response))),
     {| world := w'; log := log s ++ [SentCreate container data] |}).
Proof. intros Hvalid Hcreate. by rewrite addOne_run, Hvalid, Hcreate. Qed.

Lemma seedOne_run (container : Container) (data : Item) (s : St P) :
  Database.seedOne P validate container data s
  = match validate data with
    | Some e => (Thrown (Raised e), s)
    | None =>
        let '(data', settled, w) := items_create P container data (world s) in
        (match settled with
         | Resolved response => Returned response
         | Rejected e => Thrown (Raised e)
         end,
         {| world := w; log := log s ++ [SentCreate container data] |})
    end.
Proof.
  unfold Database.seedOne, Database.validated, Database.send_create.
  unfold mbind, M_bind, throw.
  destruct (validate data) as [e |]; [done |].
  unfold mret at 1, M_ret at 1.
  destruct (items_create P container data (world s)) as [[data' settled] w].
  by destruct settled.
Qed.

(** seedOne and addOne do the same to the store and differ in what comes
    back: they leave the same state; what seedOne returns raw, addOne
    returns as [{ data, status }]; the error of [validate] is thrown by
    both; and a rejected create, which seedOne throws, is a response
    without data in addOne. *)
Theorem seedOne_and_addOne (container : Container) (data : Item) (s : St P) :
  let seeded := Database.seedOne P validate container data s in
  let added := Database.addOne P validate defaultStatus container data s in
  seeded.2 = added.2
  /\ match seeded.1 with
     | Returned response =>
         added.1 = Returned (DatabaseResponse.mk (DatabaseResponse.OneItem <$> resource response)
                                                 None (JNum (statusCode response)))
     | Thrown e =>
         match validate data with
         | Some err => e = Raised err /\ added.1 = Thrown e
         | None =>
             exists r, added.1 = Returned r
                       /\ DatabaseResponse.data r = None
                       /\ DatabaseResponse.status r
                          = DatabaseResponse.status
                              (DatabaseResponse.new defaultStatus
                                 (DatabaseResponse.mk None None (exn_code e)))
         end
     end.
Proof.
  cbn zeta. rewrite seedOne_run, addOne_run.
  destruct (validate data) as [err |]; [done |].
  destruct (items_create P container data (world s)) as [[data' [response | e]] w];
    cbn [fst snd]; [done |].
  split; [done |]. by eexists.
Qed.

(** The guard of delete is on the one name: for any other [dbName] the
    deletion is sent, between the two lines on the console; when the
    provider rejects it, the error is thrown and the second line is not
    written. *)
Theorem delete_unguarded (s : St P) :
  Database.dbName this <> "digitallinguistics" ->
  exists deleting deleted,
    forall settled w,
      database_delete P (world s) = (settled, w) ->
      Database.delete P this s
      = match settled with
        | Resolved _ =>
            (Returned tt,
             {| world := w;
                log := log s ++ [ConsoleInfo deleting; SentDeleteDatabase;
                                 ConsoleInfo deleted] |})
        | Rejected e =>
            (Thrown (Raised e),
             {| world := w;
                log := log s ++ [ConsoleInfo deleting; SentDeleteDatabase] |})
        end.
Proof.
  intros Hname. eexists _, _. intros settled w Hdelete.
  rewrite delete_run, bool_decide_eq_false_2 by done. cbn zeta.
  rewrite Hdelete. reflexivity.
Qed.

(** *** what a call sends *)

Lemma getMany_log (container : Container) (partitionKey : string) (ids : list string)
    (s : St P) :
  log (Database.getMany P defaultStatus container partitionKey ids s).2
  = log s ++ if decide (100 < length ids) then []
             else [SentBulk container (map (Database.read_operation partitionKey) ids) true].
Proof.
  unfold Database.getMany. change (Pos.to_nat Database.bulkLimit) with 100.
  case_bool_decide; case_decide; try done.
  - cbn. by rewrite app_nil_r.
  - unfold mbind, M_bind.
    match goal with |- context [await ?d ?call s] =>
      destruct (call (world s)) as [p w] eqn:Hcall;
      rewrite (await_settled d call s p w Hcall) end.
    destruct p as [results | e]; [| done].
    unfold lift. by destruct (map_from _ 0 results).
Qed.

Lemma perform_footprint (call : Database.Call) (s : St P) :
  exists l,
    log (Database.perform P validate defaultStatus this call s).2 = log s ++ l
    /\ footprint validate this call l.
Proof.
  destruct call as [| c item | c key items | type options | c partition id | c key ids
                    | id | options | language id | options | id | options | id |];
    unfold Database.perform;
    unfold Database.getLanguage, Database.getLexeme, Database.getProject,
           Database.getReference, Database.getLanguages, Database.getLexemes,
           Database.getProjects, Database.getReferences;
    rewrite ?fmap_run; cbn [footprint].
  - unfold mbind, M_bind. rewrite delete_run. case_bool_decide.
    + exists []. by rewrite app_nil_r.
    + cbn zeta. destruct (database_delete P (world s)) as [[[] | e] w].
      * eexists. split; [done |]. eexists _, _. split; [done |]. right. by eexists.
      * eexists. split; [done |]. eexists _, _. split; [done |]. by left.
  - rewrite addOne_run. destruct (validate item) as [err |].
    + exists []. by rewrite app_nil_r.
    + destruct (items_create P c item (world s)) as [[item' settled] w].
      by eexists.
  - destruct (for_of_log P defaultStatus c key
                (chunk (map Database.create_operation items) Database.bulkLimit) [] s)
      as (n & _ & Hlog).
    exists (map (fun batch => SentBatch c batch key)
                (take n (chunk (map Database.create_operation items) Database.bulkLimit))).
    split; [| by exists n].
    unfold Database.addMany, mbind, M_bind.
    by destruct (for_of _ _ [] s) as [[[r | results] | e] s1].
  - rewrite count_run. destruct (Database.types this type) as [c |].
    + cbn zeta. destruct (query_fetchAll P c _ (world s)) as [[[| row rows] | e] w];
        by eexists.
    + exists []. by rewrite app_nil_r.
  - rewrite getOne_run.
    destruct (item_read P c id partition (world s)) as [[response | e] w]; by eexists.
  - pose proof (getMany_log c key ids s) as Hlog.
    destruct (Database.getMany P defaultStatus c key ids s) as [[r | e] s1];
      cbn [snd] in *; eexists; (split; [exact Hlog |]); by case_decide.
  - rewrite getOne_run.
    destruct (item_read P Metadata id "Language" (world s)) as [[response | e] w];
      by eexists.
  - destruct options as [language project].
    match goal with |- context [Database.collect _ _ ?c ?q s] =>
      exists [SentIterate c q]; split; [| by eexists];
      pose proof (collect_log P defaultStatus c q s) as Hlog;
      by destruct (Database.collect P defaultStatus c q s) as [[r | e] s1] end.
  - rewrite getOne_run.
    destruct (item_read P Data id language (world s)) as [[response | e] w];
      by eexists.
  - destruct options as [language project].
    match goal with |- context [Database.collect _ _ ?c ?q s] =>
      exists [SentIterate c q]; split; [| by eexists];
      pose proof (collect_log P defaultStatus c q s) as Hlog;
      by destruct (Database.collect P defaultStatus c q s) as [[r | e] s1] end.
  - rewrite getOne_run.
    destruct (item_read P Metadata id "Project" (world s)) as [[response | e] w];
      by eexists.
  - match goal with |- context [Database.collect _ _ ?c ?q s] =>
      exists [SentIterate c q]; split; [| by eexists];
      pose proof (collect_log P defaultStatus c q s) as Hlog;
      by destruct (Database.collect P defaultStatus c q s) as [[r | e] s1] end.
  - rewrite getOne_run.
    destruct (item_read P Metadata id "BibliographicReference" (world s))
      as [[response | e] w]; by eexists.
  - match goal with |- context [Database.collect _ _ ?c ?q s] =>
      exists [SentIterate c q]; split; [| by eexists];
      pose proof (collect_log P defaultStatus c q s) as Hlog;
      by destruct (Database.collect P defaultStatus c q s) as [[r | e] s1] end.
Qed.

(** Apart from addMany and the list methods, which go to the provider
    once per chunk and once per page, no call goes to the provider more
    than once: nothing is retried. *)
Theorem one_request_at_most (call : Database.Call) (s : St P) :
  (forall c key items, call <> Database.CallAddMany c key items) ->
  listed_in call = None ->
  exists l,
    log (Database.perform P validate defaultStatus this call s).2 = log s ++ l
    /\ length (List.filter to_store l) <= 1.
Proof.
  intros Hcall Hlist. destruct (perform_footprint call s) as (l & Hlog & Hfoot).
  exists l. split; [done |].
  destruct call; cbn [footprint] in Hfoot;
    try discriminate Hlist; try (exfalso; by eapply Hcall);
    repeat match goal with
      | H : context [bool_decide ?p] |- _ => destruct (bool_decide p)
      | H : context [decide ?p] |- _ => destruct (decide p)
      | H : match ?x with _ => _ end |- _ => destruct x
      | H : exists _, _ |- _ => destruct H
      | H : _ /\ _ |- _ => destruct H
      | H : _ \/ _ |- _ => destruct H
      end; subst; cbn; lia.
Qed.

(** A call that is meant to read only reads: whatever count, getOne,
    getMany and the getters send is a point read, a query or a bulk
    request of [Read] operations; no create, no batch, no deletion. *)
Theorem reads_only_read (call : Database.Call) (s : St P) :
  read_call call = true ->
  exists l,
    log (Database.perform P validate defaultStatus this call s).2 = log s ++ l
    /\ Forall (fun d => read_request d = true) l.
Proof.
  intros Hread. destruct (perform_footprint call s) as (l & Hlog & Hfoot).
  exists l. split; [done |].
  destruct call; try discriminate Hread; cbn [footprint] in Hfoot;
    repeat match goal with
      | H : context [decide ?p] |- _ => destruct (decide p)
      | H : match ?x with _ => _ end |- _ => destruct x
      | H : exists _, _ |- _ => destruct H
      end; subst; repeat constructor.
  cbn. apply forallb_forall. intros op Hop.
  apply in_map_iff in Hop as (id & <- & _). by apply bool_decide_eq_true_2.
Qed.

End Writes.

(** ** seedMany *)

Section Seed.
Context (P : Provider) (validate : Item -> option Err).
Context (partition_of : Container -> Item -> string).
Context (container : Container) (partitionKey : string).

Local Abbreviation Sent := (fun operations => SentBatch container operations partitionKey).
Local Abbreviation body := (Database.seedMany_body P container partitionKey).

Lemma seedMany_body_settled b acc s p w :
  items_batch P container b partitionKey (world s) = (p, w) ->
  body b acc s
  = (match p with
     | Resolved r => Returned (Next (acc ++ result r))
     | Rejected e => Thrown (Raised e)
     end,
     {| world := w; log := log s ++ [Sent b] |}).
Proof.
  intros Hb. unfold Database.seedMany_body. unfold mbind, M_bind.
  rewrite (await_settled _ _ _ _ _ Hb). by destruct p.
Qed.

Lemma for_of_answered pre rest w responses w' acc l :
  answered P container partitionKey pre w responses w' ->
  for_of (pre ++ rest) body acc {| world := w; log := l |}
  = for_of rest body (acc ++ concat (map result responses))
      {| world := w'; log := l ++ map Sent pre |}.
Proof.
  intros Hans. revert acc l.
  induction Hans as [w | b bs w r w1 rs w2 Hb _ IH]; intros acc l.
  - cbn [app map concat]. by rewrite !app_nil_r.
  - cbn [app]. rewrite for_of_cons.
    rewrite (seedMany_body_settled _ _ _ (Resolved r) w1) by done.
    rewrite IH. cbn [map concat world log]. by rewrite <- !(assoc_L (++)).
Qed.

Lemma seed_loop_log batches acc s :
  exists n, n <= length batches
    /\ log (for_of batches body acc s).2 = log s ++ map Sent (take n batches).
Proof.
  revert acc s. induction batches as [|b bs IH]; intros acc s.
  - exists 0. split; [done |]. cbn. by rewrite app_nil_r.
  - rewrite for_of_cons.
    destruct (items_batch P container b partitionKey (world s)) as [p w1] eqn:Hb.
    rewrite (seedMany_body_settled _ _ _ _ _ Hb).
    destruct p as [r | e].
    + match goal with |- context [for_of bs _ ?a ?s1] =>
        destruct (IH a s1) as (n & Hn & ->) end.
      exists (S n). split; [simpl; lia |]. cbn [log take map].
      by rewrite <- (assoc_L (++)).
    + exists 1. split; [simpl; lia |]. done.
Qed.

End Seed.

Section SeedMany.
Context (P : Provider) (validate : Item -> option Err).
Context (partition_of : Container -> Item -> string).
Context (container : Container) (count : nat) (data : Item).

Local Abbreviation copy := {| id := None; fields := fields data |}.
Local Abbreviation batches :=
  (chunk (replicate count (Database.create_operation copy)) Database.bulkLimit).
Local Abbreviation seedMany := (Database.seedMany P validate partition_of container count data).

(** seedMany does not look at the code of a batch: when every batch call
    resolves, with 207 or any other code, every chunk is sent, in order,
    and the results of all of them come back as one list.  Where addMany
    stops at a 207, seedMany goes on. *)
Theorem seedMany_goes_on (s : St P) (responses : list BatchResponse) (w' : World P) :
  validate data = None ->
  answered P container (partition_of container copy) batches (world s) responses w' ->
  seedMany s
  = (Returned (concat (map result responses)),
     {| world := w';
        log := log s ++ map (fun batch => SentBatch container batch
                                            (partition_of container copy)) batches |}).
Proof.
  intros Hvalid Hans.
  unfold Database.seedMany, Database.validated. rewrite Hvalid.
  unfold mbind, M_bind. unfold mret at 1, M_ret at 1.
  rewrite <- (app_nil_r batches) at 1. rewrite <- (St_eta s) at 1.
  by rewrite (for_of_answered _ _ _ _ _ _ _ _ _ _ Hans).
Qed.

(** What seedMany sends, whatever the provider does: an initial stretch of
    the chunks of [count] identical [Create] operations, whose document is
    the data without its [id]; nothing at all when [validate] rejects the
    data, whose error is thrown; and nothing, with an empty list as the
    result, when [count] is 0. *)
Theorem seedMany_documents (s : St P) :
  concat batches = replicate count (Database.create_operation copy)
  /\ (exists n,
        log (seedMany s).2
        = log s ++ map (fun batch => SentBatch container batch
                                       (partition_of container copy))
                       (take n batches))
  /\ (forall err, validate data = Some err -> seedMany s = (Thrown (Raised err), s))
  /\ (validate data = None -> count = 0 -> seedMany s = (Returned [], s)).
Proof.
  split; [apply chunk_concat |].
  unfold Database.seedMany, Database.validated.
  split; [| split].
  - destruct (validate data) as [err |].
    + exists 0. cbn. by rewrite app_nil_r.
    + unfold mbind, M_bind. unfold mret at 1, M_ret at 1.
      destruct (seed_loop_log P container (partition_of container copy) batches [] s)
        as (n & _ & Hlog).
      exists n.
      by destruct (for_of batches _ [] s) as [[[[] | results] | e] s1].
  - by intros err ->.
  - by intros -> ->.
Qed.

End SeedMany.

(** ** The further properties at work *)

(** count of a type that the map of types does not know. *)
Lemma count_unknown_type_witness :
  Memory.types "Verb" = None
  /\ exists text,
      Database.count (Memory.provider Memory.one_row) 200 Memory.test_db "Verb"
        {| Database.language := None; Database.project := None |} (Memory.start [])
      = (Thrown (TypeError text), Memory.start []).
Proof.
  split; [reflexivity |].
  exact (count_unknown_type (Memory.provider Memory.one_row) 200 Memory.test_db "Verb"
           {| Database.language := None; Database.project := None |} (Memory.start [])
           eq_refl).
Defined.

(** getLexemes on a store with two lexemes and a language. *)
Lemma list_methods_collect_witness :
  let call := Database.CallGetLexemes
                {| Database.language := Some "fr"; Database.project := None |} in
  let s := Memory.start [(Data, Memory.lexeme "a");
                         (Metadata, {| id := Some "fr"; fields := [("type", JStr "Language")] |});
                         (Data, Memory.lexeme "b")] in
  listed_in call = Some Data
  /\ (Database.perform (Memory.provider Memory.one_row) Memory.validate 200 Memory.test_db
        call s).1
     = Returned (Some (DatabaseResponse.mk
                         (Some (DatabaseResponse.Items [Memory.lexeme "a"; Memory.lexeme "b"]))
                         None (JNum 200))).
Proof.
  intros call s. split; [reflexivity |].
  destruct (list_methods_collect (Memory.provider Memory.one_row) 200 Memory.test_db
              Memory.validate call Data s eq_refl) as [query H].
  by rewrite (H _ _ _ eq_refl).
Defined.

(** addMany of 150 lexemes to a provider that takes the first chunk and
    rejects the second. *)
Lemma addMany_rejected_batch_witness :
  let P := Stub.provider Stub.full_only (Rejected Offline.unavailable) in
  let items := map (fun i : nat => Memory.lexeme ("w" +:+ pretty i)) (seq 0 150) in
  let out := Database.addMany P 200 Data "fr" items (Build_St P tt []) in
  out.1 = Thrown (Raised Offline.unavailable)
  /\ map (fun d => match d with SentBatch _ ops _ => length ops | _ => 0 end) (log out.2)
     = [100; 50].
Proof.
  intros P items out.
  set (batches := chunk (map Database.create_operation items) Database.bulkLimit).
  assert (Hsplit : batches = [default [] (batches !! 0)] ++ default [] (batches !! 1) :: [])
    by (vm_compute; reflexivity).
  eassert (Hacc : accepted P Data "fr" [default [] (batches !! 0)] tt _ _).
  { eapply accepted_cons; [by_running | vm_compute; discriminate | apply accepted_nil]. }
  pose proof (addMany_rejected_batch P 200 Data "fr" items (Build_St P tt []) _ _ _ _ _ tt
                Offline.unavailable Hsplit Hacc ltac:(by_running)) as H.
  subst out. rewrite H. split; [reflexivity | vm_compute; reflexivity].
Defined.

(** getMany of one id from a provider that answers with two results, and
    from one that answers with none. *)
Lemma getMany_result_count_witness :
  let result := {| res_statusCode := 200; res_resourceBody := None |} in
  let two := Stub.provider Stub.full_only (Resolved [result; result]) in
  let none := Stub.provider Stub.full_only (Resolved []) in
  (exists text, (Database.getMany two 200 Data "fr" ["a"] (Build_St two tt [])).1
                = Thrown (TypeError text))
  /\ (Database.getMany none 200 Data "fr" ["a"] (Build_St none tt [])).1
     = Returned (DatabaseResponse.mk (Some (DatabaseResponse.Entries [])) None (JNum 207)).
Proof.
  intros result two none.
  assert (Hlen : length ["a"] <= 100) by (simpl; lia).
  split.
  - destruct (getMany_result_count two 200 Data "fr" ["a"] (Build_St two tt [])
                [result; result] tt Hlen eq_refl) as [text H].
    exists text. by rewrite H.
  - destruct (getMany_result_count none 200 Data "fr" ["a"] (Build_St none tt [])
                [] tt Hlen eq_refl) as [text H].
    by rewrite H.
Defined.

(** addOne of a new lexeme. *)
Lemma addOne_created_witness :
  Memory.validate (Memory.lexeme "a") = None
  /\ Database.addOne (Memory.provider Memory.one_row) Memory.validate 200 Data
       (Memory.lexeme "a") (Memory.start [])
     = (Returned (DatabaseResponse.mk (Some (DatabaseResponse.OneItem (Memory.lexeme "a")))
                                      None (JNum 201)),
        Build_St (Memory.provider Memory.one_row) [(Data, Memory.lexeme "a")]
                 [SentCreate Data (Memory.lexeme "a")]).
Proof.
  split; [reflexivity |].
  exact (addOne_created (Memory.provider Memory.one_row) Memory.validate 200 Data
           (Memory.lexeme "a") (Memory.lexeme "a")
           {| resource := Some (Memory.lexeme "a"); statusCode := 201 |}
           (Memory.start []) [(Data, Memory.lexeme "a")] eq_refl eq_refl).
Defined.

(** delete of the test database empties the in-memory store. *)
Lemma delete_unguarded_witness :
  Database.dbName Memory.test_db <> "digitallinguistics"
  /\ exists deleting deleted,
      Database.delete (Memory.provider Memory.one_row) Memory.test_db
        (Memory.start [(Data, Memory.lexeme "a")])
      = (Returned tt,
         Build_St (Memory.provider Memory.one_row) []
                  [ConsoleInfo deleting; SentDeleteDatabase; ConsoleInfo deleted]).
Proof.
  assert (Hname : Database.dbName Memory.test_db <> "digitallinguistics") by discriminate.
  split; [exact Hname |].
  destruct (delete_unguarded (Memory.provider Memory.one_row) Memory.test_db
              (Memory.start [(Data, Memory.lexeme "a")]) Hname)
    as (deleting & deleted & H).
  exists deleting, deleted. exact (H (Resolved tt) [] eq_refl).
Defined.

(** A getMany of two ids on the in-memory provider: one request. *)
Lemma one_request_at_most_witness :
  let call := Database.CallGetMany Data "fr" ["a"; "b"] in
  exists l,
    log (Database.perform (Memory.provider Memory.one_row) Memory.validate 200
           Memory.test_db call (Memory.start [])).2 = l
    /\ length (List.filter to_store l) <= 1.
Proof.
  intros call.
  destruct (one_request_at_most (Memory.provider Memory.one_row) Memory.validate 200
              Memory.test_db call (Memory.start [])) as (l & Hlog & Hone).
  { intros c key items. discriminate. }
  { reflexivity. }
  exists l. split; [exact Hlog | exact Hone].
Defined.

(** A count on the in-memory provider: what it sends is a read. *)
Lemma reads_only_read_witness :
  let call := Database.CallCount "Lexeme"
                {| Database.language := None; Database.project := Some "p1" |} in
  read_call call = true
  /\ exists l,
      log (Database.perform (Memory.provider Memory.one_row) Memory.validate 200
             Memory.test_db call (Memory.start [])).2 = l
      /\ Forall (fun d => read_request d = true) l.
Proof.
  intros call. split; [reflexivity |].
  destruct (reads_only_read (Memory.provider Memory.one_row) Memory.validate 200
              Memory.test_db call (Memory.start []) eq_refl) as (l & Hlog & Hread).
  exists l. split; [exact Hlog | exact Hread].
Defined.

(** seedMany of 150 copies to a provider that answers every batch with a
    207: both batches leave and the 150 results come back. *)
Lemma seedMany_goes_on_witness :
  let P := Stub.provider Stub.partial_failure (Rejected Offline.unavailable) in
  let out := Database.seedMany P Memory.validate (fun _ _ => "fr") Data 150
               (Memory.lexeme "a") (Build_St P tt []) in
  Memory.validate (Memory.lexeme "a") = None
  /\ (exists results, out.1 = Returned results /\ length results = 150)
  /\ map (fun d => match d with SentBatch _ ops _ => length ops | _ => 0 end) (log out.2)
     = [100; 50].
Proof.
  intros P out. split; [reflexivity |].
  eassert (Hans : answered P Data "fr"
                    (chunk (replicate 150 (Database.create_operation
                                             {| id := None;
                                                fields := fields (Memory.lexeme "a") |}))
                           Database.bulkLimit) tt _ _).
  { match goal with |- answered _ _ _ ?bs _ _ _ =>
      let v := eval vm_compute in bs in change bs with v end.
    repeat (eapply answered_cons; [by_running |]). apply answered_nil. }
  pose proof (seedMany_goes_on P Memory.validate (fun _ _ => "fr") Data 150
                (Memory.lexeme "a") (Build_St P tt []) _ _ eq_refl Hans) as H.
  subst out. rewrite H. split.
  - eexists. split; [reflexivity | vm_compute; reflexivity].
  - vm_compute. reflexivity.
Defined.

(** seedMany of a document that [validate] rejects, and of no copy. *)
Lemma seedMany_documents_witness :
  let P := Memory.provider Memory.one_row in
  let untyped := {| id := Some "x"; fields := [] |} in
  (exists err, Database.seedMany P Memory.validate (fun _ _ => "fr") Data 3 untyped
                 (Memory.start [])
               = (Thrown (Raised err), Memory.start []))
  /\ Database.seedMany P Memory.validate (fun _ _ => "fr") Data 0 (Memory.lexeme "a")
       (Memory.start [])
     = (Returned [], Memory.start []).
Proof.
  intros P untyped. split.
  - destruct (seedMany_documents P Memory.validate (fun _ _ => "fr") Data 3 untyped
                (Memory.start [])) as (_ & _ & Hinvalid & _).
    eexists. exact (Hinvalid _ eq_refl).
  - destruct (seedMany_documents P Memory.validate (fun _ _ => "fr") Data 0
                (Memory.lexeme "a") (Memory.start [])) as (_ & _ & _ & Hzero).
    exact (Hzero eq_refl eq_refl).
Defined.

(** ** count and the list methods agree on what they select *)

Section CountAndList.
Context (P : Provider) (defaultStatus : Z) (this : Database.t).

Lemma string_app_nil_r (s : string) : s +:+ "" = s.
Proof.
  induction s as [|a s IH]; [done |].
  change (String a (s +:+ "") = String a s). by rewrite IH.
Qed.

Lemma count_log (type : string) (options : Database.CountOptions) (c : Container)
    (s : St P) :
  Database.types this type = Some c ->
  log (Database.count P defaultStatus this type options s).2
  = log s ++ [SentFetchAll c (Database.count_query (Some c) type options)].
Proof.
  intros Htype. rewrite count_run, Htype. cbn zeta.
  by destruct (query_fetchAll P c _ (world s)) as [[[| row rows] | e] w].
Qed.

(** count of lexemes counts what getLexemes lists: for the same options,
    the two queries have the same [WHERE] clause.  The same holds of the
    languages and getLanguages when, and only when, no language filter is
    given: count applies the filter and getLanguages does not read it, so
    with a language filter no [WHERE] clause is common to the two queries. *)
Theorem count_selects_what_is_listed (options : Database.CountOptions) (s : St P) :
  (Database.types this "Lexeme" = Some Data ->
   exists where_clause,
     log (Database.count P defaultStatus this "Lexeme" options s).2
     = log s ++ [SentFetchAll Data ("SELECT COUNT(data) FROM data" +:+ where_clause)]
     /\ log (Database.getLexemes P defaultStatus options s).2
        = log s ++ [SentIterate Data ("SELECT * FROM data" +:+ where_clause)])
  /\ (Database.types this "Language" = Some Metadata ->
      truthy (Database.language options) = false ->
      exists where_clause,
        log (Database.count P defaultStatus this "Language" options s).2
        = log s ++ [SentFetchAll Metadata
                      ("SELECT COUNT(metadata) FROM metadata" +:+ where_clause)]
        /\ log (Database.getLanguages P defaultStatus options s).2
           = log s ++ [SentIterate Metadata ("SELECT * FROM metadata" +:+ where_clause)])
  /\ (Database.types this "Language" = Some Metadata ->
      truthy (Database.language options) = true ->
      ~ exists where_clause,
          log (Database.count P defaultStatus this "Language" options s).2
          = log s ++ [SentFetchAll Metadata
                        ("SELECT COUNT(metadata) FROM metadata" +:+ where_clause)]
          /\ log (Database.getLanguages P defaultStatus options s).2
             = log s ++ [SentIterate Metadata
                           ("SELECT * FROM metadata" +:+ where_clause)]).
Proof.
  destruct options as [language project]. split; [| split].
  - intros Htype. rewrite (count_log _ _ Data) by done.
    unfold Database.getLexemes. rewrite collect_log.
    unfold Database.count_query. cbn [fmap option_fmap option_map interpolate container_name].
    exists (" WHERE data.type = 'Lexeme'"
            +:+ (if truthy language
                 then " AND data.language.id = '" +:+ interpolate language +:+ "'" else "")
            +:+ (if truthy project
                 then Database.project_clause "data" (interpolate project) else "")).
    destruct (truthy language), (truthy project);
      rewrite ?string_app_assoc, ?string_app_nil_r; done.
  - intros Htype Hlanguage. cbn in Hlanguage. rewrite (count_log _ _ Metadata) by done.
    unfold Database.getLanguages. rewrite collect_log.
    unfold Database.count_query. cbn [fmap option_fmap option_map interpolate container_name].
    rewrite Hlanguage.
    exists (" WHERE metadata.type = 'Language'"
            +:+ (if truthy project
                 then Database.project_clause "metadata" (interpolate project) else "")).
    destruct (truthy project); rewrite ?string_app_assoc, ?string_app_nil_r; done.
  - intros Htype Hlanguage (where_clause & Hcount & Hlist). cbn in Hlanguage.
    rewrite (count_log _ _ Metadata) in Hcount by done.
    unfold Database.getLanguages in Hlist. rewrite collect_log in Hlist.
    apply app_inv_head in Hcount, Hlist.
    injection Hcount as Hcount. injection Hlist as Hlist.
    apply (f_equal String.length) in Hcount, Hlist.
    unfold Database.count_query in Hcount.
    cbn [fmap option_fmap option_map interpolate container_name] in Hcount.
    rewrite Hlanguage in Hcount.
    destruct (truthy project);
      repeat rewrite string_length_app in Hcount;
      repeat rewrite string_length_app in Hlist;
      cbn [String.length] in Hcount, Hlist; lia.
Qed.

End CountAndList.

(** count and getLexemes of the lexemes of a language in a project; count
    and getLanguages of the languages with a language filter. *)
Lemma count_selects_what_is_listed_witness :
  let options := {| Database.language := Some "fr"; Database.project := Some "p1" |} in
  let s := Memory.start [] in
  Database.types Memory.test_db "Lexeme" = Some Data
  /\ Database.types Memory.test_db "Language" = Some Metadata
  /\ truthy (Database.language options) = true
  /\ (exists where_clause,
        log (Database.count (Memory.provider Memory.one_row) 200 Memory.test_db "Lexeme"
               options s).2
        = [SentFetchAll Data ("SELECT COUNT(data) FROM data" +:+ where_clause)]
        /\ log (Database.getLexemes (Memory.provider Memory.one_row) 200 options s).2
           = [SentIterate Data ("SELECT * FROM data" +:+ where_clause)])
  /\ ~ (exists where_clause,
          log (Database.count (Memory.provider Memory.one_row) 200 Memory.test_db
                 "Language" options s).2
          = [SentFetchAll Metadata
               ("SELECT COUNT(metadata) FROM metadata" +:+ where_clause)]
          /\ log (Database.getLanguages (Memory.provider Memory.one_row) 200 options s).2
             = [SentIterate Metadata ("SELECT * FROM metadata" +:+ where_clause)]).
Proof.
  intros options s.
  split; [reflexivity |]. split; [reflexivity |]. split; [reflexivity |].
  destruct (count_selects_what_is_listed (Memory.provider Memory.one_row) 200
              Memory.test_db options s) as (Hlexemes & _ & Hlanguages).
  split.
  - destruct (Hlexemes eq_refl) as (where_clause & Hcount & Hlist).
    by exists where_clause.
  - exact (Hlanguages eq_refl eq_refl).
Defined.

(** * clear, clearContainer and setup *)

Lemma keyed_as_known (name : string) (c : Container) :
  Database.this_container name = Some c -> Database.keyed_as name = c.
Proof.
  unfold Database.this_container, Database.keyed_as.
  repeat case_bool_decide; congruence.
Qed.

(** ** Calls side by side *)

Section Tasks.
Context {P : Provider} {A : Type}.

Lemma Promise_all_eq (t1 t2 : Task P A) (arrival : list bool) (s : St P) :
  Promise_all t1 t2 arrival s
  = match t1, t2 with
    | Failed e, _ => (Thrown e, s)
    | _, Failed e => (Thrown e, s)
    | Finished a1, Finished a2 => (Returned (a1, a2), s)
    | Awaiting _ call1 resume1, Finished _ =>
        let t := resume1 (call1 (world s)).1 in
        Promise_all t t2 arrival
          {| world := (call1 (world s)).2; log := log s ++ sent t |}
    | Finished _, Awaiting _ call2 resume2 =>
        let t := resume2 (call2 (world s)).1 in
        Promise_all t1 t arrival
          {| world := (call2 (world s)).2; log := log s ++ sent t |}
    | Awaiting _ call1 resume1, Awaiting _ call2 resume2 =>
        match arrival with
        | false :: arrival =>
            let t := resume2 (call2 (world s)).1 in
            Promise_all t1 t arrival
              {| world := (call2 (world s)).2; log := log s ++ sent t |}
        | _ =>
            let t := resume1 (call1 (world s)).1 in
            Promise_all t t2 (tail arrival)
              {| world := (call1 (world s)).2; log := log s ++ sent t |}
        end
    end.
Proof.
  destruct t1 as [a1 | e1 | B1 d1 call1 resume1], t2 as [a2 | e2 | B2 d2 call2 resume2];
    try reflexivity; cbn.
  - by destruct (call2 (world s)).
  - by destruct (call1 (world s)).
  - destruct arrival as [| [] arrival]; cbn.
    + by destruct (call1 (world s)).
    + by destruct (call1 (world s)).
    + by destruct (call2 (world s)).
Qed.

Lemma finish_eq (t : Task P A) (s : St P) :
  finish t s
  = match t with
    | Finished a => (Returned a, s)
    | Failed e => (Thrown e, s)
    | Awaiting d call resume =>
        let t := resume (call (world s)).1 in
        finish t {| world := (call (world s)).2; log := log s ++ sent t |}
    end.
Proof. destruct t as [a | e | B d call resume]; try done. cbn. by destruct (call (world s)). Qed.

(** Whatever order the answers arrive in, [Promise.all] throws nothing
    but what one of the two calls fails with. *)
Lemma Promise_all_thrown (Q : Exn -> Prop) (t1 t2 : Task P A) (arrival : list bool)
    (s s' : St P) (e : Exn) :
  fails_with Q t1 -> fails_with Q t2 ->
  Promise_all t1 t2 arrival s = (Thrown e, s') -> Q e.
Proof.
  revert t2 arrival s.
  induction t1 as [a1 | e1 | B1 d1 call1 resume1 IH1]; intros t2;
    induction t2 as [a2 | e2 | B2 d2 call2 resume2 IH2]; intros arrival s H1 H2;
    rewrite Promise_all_eq; cbn zeta; try (by intros [= <- <-]); try done.
  - apply IH2; [done | apply H2].
  - apply IH1; [apply H1 | done].
  - destruct arrival as [| [] arrival].
    + apply IH1; [apply H1 | done].
    + apply IH1; [apply H1 | done].
    + apply IH2; [done | apply H2].
Qed.

End Tasks.

(** ** What the methods throw *)

Section Clearing.
Context (P : Provider) (this : Database.t).
Context (partition_of : Container -> Item -> string) (has_language : Item -> bool).

Local Abbreviation clearContainer := (Database.clearContainer P partition_of has_language).
Local Abbreviation clearContainer_call :=
  (Database.clearContainer_call P partition_of has_language).
Local Abbreviation clearContainer_loop :=
  (Database.clearContainer_loop P partition_of has_language).
Local Abbreviation clearContainer_body :=
  (Database.clearContainer_body P partition_of has_language).
Local Abbreviation delete_operation := (Database.delete_operation partition_of has_language).

Lemma setup_outcome (s : St P) :
  match Database.setup P this s with
  | (Returned _, _) => True
  | (Thrown e, s') => rejected_request s s' e
  end.
Proof.
  unfold Database.setup. run.
  destruct (databases_createIfNotExists P _ _) as [[[] | err] w1]; cbn [world log].
  2: { eexists err, [_], _. by rewrite <- (assoc_L (++)). }
  destruct (containers_createIfNotExists P "data" _ _) as [[[] | err] w2]; cbn [world log].
  2: { eexists err, [_; _], _. by rewrite <- !(assoc_L (++)). }
  destruct (containers_createIfNotExists P "metadata" _ _) as [[[] | err] w3]; [done |].
  eexists err, [_; _; _], _. by rewrite <- !(assoc_L (++)).
Qed.

Lemma delete_operations_outcome (name : string) (batch : list Item) (i : nat) :
  match map_from (fun _ => delete_operation name) i batch with
  | Returned _ => True
  | Thrown e => exists text, e = TypeError text
  end.
Proof.
  revert i. induction batch as [| item batch IH]; intros i; [done |]. cbn [map_from].
  unfold Database.delete_operation at 1.
  destruct (Database.keyed_as name); [destruct (has_language item) |];
    try (by eexists);
    specialize (IH (S i)); by destruct (map_from _ (S i) batch).
Qed.

Lemma clearContainer_body_run (name : string) (batch : list Item) (s : St P) :
  clearContainer_body name batch tt s
  = match map_from (fun _ => delete_operation name) 0 batch,
          Database.this_container name with
    | Thrown e, _ => (Thrown e, s)
    | Returned operations, None =>
        (Thrown (TypeError "Cannot read properties of undefined (reading 'items')"), s)
    | Returned operations, Some c =>
        let s' := {| world := (items_bulk P c operations false (world s)).2;
                     log := log s ++ [SentBulk c operations false] |} in
        match (items_bulk P c operations false (world s)).1 with
        | Resolved _ => (Returned (Next tt), s')
        | Rejected e => (Thrown (Raised e), s')
        end
    end.
Proof.
  unfold Database.clearContainer_body, Database.container_of. run.
  destruct (map_from _ 0 batch) as [operations | e]; [| done].
  destruct (Database.this_container name) as [c |]; [| done]. cbn.
  by destruct (items_bulk P c operations false (world s)) as [[results | e] w].
Qed.

Lemma clearContainer_for_of_outcome (name : string) (batches : list (list Item)) (s : St P) :
  match for_of batches (clearContainer_body name) tt s with
  | (Returned _, _) => True
  | (Thrown e, s') => rejected_request s s' e \/ exists text, e = TypeError text
  end.
Proof.
  revert s. induction batches as [| batch batches IH]; intros s; [done |].
  rewrite for_of_cons, clearContainer_body_run.
  pose proof (delete_operations_outcome name batch 0) as Hops.
  destruct (map_from _ 0 batch) as [operations | e]; [| by right].
  destruct (Database.this_container name) as [c |]; [| right; by eexists]. cbn zeta.
  destruct (items_bulk P c operations false (world s)) as [[results | err] w]; cbn [fst snd].
  - match goal with |- context [for_of batches _ tt ?s1] =>
      specialize (IH s1); destruct (for_of batches _ tt s1) as [[step | e] s'] end;
      [done |].
    destruct IH as [Hrej | Htype]; [left | by right].
    by eapply (rejected_request_later P s _ s' e [SentBulk c operations false]); [| exact Hrej].
  - left. by exists err, [], (SentBulk c operations false).
Qed.

Lemma clearContainer_run (name : string) (s : St P) :
  clearContainer name s
  = match Database.this_container name with
    | None =>
        (Thrown (TypeError "Cannot read properties of undefined (reading 'items')"), s)
    | Some c =>
        let s1 := {| world := (items_readAll P c (world s)).2;
                     log := log s ++ [SentReadAll c] |} in
        match (items_readAll P c (world s)).1 with
        | Rejected e => (Thrown (Raised e), s1)
        | Resolved resources =>
            match for_of (chunk resources Database.bulkLimit) (clearContainer_body name) tt s1 with
            | (Returned _, s') => (Returned tt, s')
            | (Thrown e, s') => (Thrown e, s')
            end
        end
    end.
Proof.
  unfold Database.clearContainer, Database.container_of. run.
  destruct (Database.this_container name) as [c |]; [| done]. cbn.
  destruct (items_readAll P c (world s)) as [[resources | e] w]; [| done]. cbn.
  by destruct (for_of _ _ tt _) as [[step | e] s'].
Qed.

(** What clearContainer throws: the rejection of its last request, or a
    [TypeError]; where the name has no container, nothing has been sent. *)
Lemma clearContainer_outcome (name : string) (s : St P) :
  match clearContainer name s with
  | (Returned _, _) => True
  | (Thrown e, s') =>
      rejected_request s s' e
      \/ ((exists text, e = TypeError text)
          /\ (Database.this_container name = None -> s' = s))
  end.
Proof.
  rewrite clearContainer_run.
  destruct (Database.this_container name) as [c |]; [| right; split; [by eexists | done]].
  cbn zeta. destruct (items_readAll P c (world s)) as [[resources | err] w]; cbn [fst snd].
  - match goal with |- context [for_of ?bs _ tt ?s1] =>
      pose proof (clearContainer_for_of_outcome name bs s1) as H;
      destruct (for_of bs _ tt s1) as [[step | e] s'] end; [done |].
    destruct H as [Hrej | Htype]; [left | by right].
    by eapply (rejected_request_later P s _ s' e [SentReadAll c]); [| exact Hrej].
  - left. by exists err, [], (SentReadAll c).
Qed.

(** The call of clearContainer, awaited on its own, is the method. *)
Lemma clearContainer_loop_finish (name : string) (batches : list (list Item)) (s : St P) :
  (start (clearContainer_loop name batches);; finish (clearContainer_loop name batches)) s
  = match for_of batches (clearContainer_body name) tt s with
    | (Returned _, s') => (Returned tt, s')
    | (Thrown e, s') => (Thrown e, s')
    end.
Proof.
  revert s. induction batches as [| batch batches IH]; intros s.
  { unfold start. run. cbn. by rewrite app_nil_r, St_eta. }
  rewrite for_of_cons, clearContainer_body_run. cbn [Database.clearContainer_loop].
  destruct (map_from _ 0 batch) as [operations | e].
  2: { unfold start. run. cbn. by rewrite app_nil_r, St_eta. }
  destruct (Database.this_container name) as [c |].
  2: { unfold start. run. cbn. by rewrite app_nil_r, St_eta. }
  unfold mbind, M_bind, start at 1. cbn [sent awaiting].
  rewrite finish_eq. unfold awaiting at 1. cbn [world log]. cbn zeta.
  destruct (items_bulk P c operations false (world s)) as [[results | err] w]; cbn [fst snd].
  - rewrite <- IH. unfold mbind, M_bind, start. by cbn [world log].
  - by rewrite finish_eq, app_nil_r.
Qed.

Lemma clearContainer_call_finish (name : string) (s : St P) :
  (start (clearContainer_call name);; finish (clearContainer_call name)) s
  = clearContainer name s.
Proof.
  rewrite clearContainer_run. unfold Database.clearContainer_call.
  destruct (Database.this_container name) as [c |].
  2: { unfold start. run. cbn. by rewrite app_nil_r, St_eta. }
  unfold mbind, M_bind, start at 1. cbn [sent awaiting].
  rewrite finish_eq. unfold awaiting at 1. cbn [world log]. cbn zeta.
  destruct (items_readAll P c (world s)) as [[resources | err] w]; cbn [fst snd].
  - rewrite <- clearContainer_loop_finish. unfold mbind, M_bind, start. by cbn [world log].
  - by rewrite finish_eq, app_nil_r.
Qed.

Lemma clearContainer_loop_fails (name : string) (batches : list (list Item)) :
  fails_with (fun e => (exists text, e = TypeError text) \/ rejected_clearing P e)
             (clearContainer_loop name batches).
Proof.
  induction batches as [| batch batches IH]; [done |]. cbn [Database.clearContainer_loop].
  pose proof (delete_operations_outcome name batch 0) as Hops.
  destruct (map_from _ 0 batch) as [operations | e]; [| by left].
  destruct (Database.this_container name) as [c |]; [| left; by eexists].
  intros w. cbn. destruct (items_bulk P c operations false w) as [[results | err] w'] eqn:Hbulk;
    cbn; [done |].
  right. exists err, c, w. split; [done |]. right. exists operations. by rewrite Hbulk.
Qed.

Lemma clearContainer_call_fails (name : string) :
  fails_with (fun e => (exists text, e = TypeError text) \/ rejected_clearing P e)
             (clearContainer_call name).
Proof.
  unfold Database.clearContainer_call.
  destruct (Database.this_container name) as [c |]; [| left; by eexists].
  intros w. cbn. destruct (items_readAll P c w) as [[resources | err] w'] eqn:Hread; cbn.
  - apply clearContainer_loop_fails.
  - right. exists err, c, w. split; [done |]. left. by rewrite Hread.
Qed.

(** What clear throws, whatever the order of the answers. *)
Lemma clear_outcome (silent : bool) (arrival : list bool) (s s' : St P) (e : Exn) :
  Database.clear P this partition_of has_language silent arrival s = (Thrown e, s') ->
  (exists text, e = TypeError text) \/ rejected_clearing P e.
Proof.
  unfold Database.clear. cbn zeta. unfold mbind, M_bind.
  destruct silent; cbn [negb]; unfold mret, M_ret, console_info, start; cbn [world log];
    match goal with |- context [Promise_all ?t1 ?t2 arrival ?s1] =>
      pose proof (fun e s' => Promise_all_thrown _ t1 t2 arrival s1 s' e
                    (clearContainer_call_fails "data")
                    (clearContainer_call_fails "metadata")) as H;
      destruct (Promise_all t1 t2 arrival s1) as [[both | e1] s1'] end;
    try (by intros [= <- <-]; eapply H); done.
Qed.

(** *** what clearContainer sends *)

Lemma delete_operations_made (name : string) (c : Container) (batch : list Item) (i : nat) :
  Database.this_container name = Some c ->
  (c = Data -> Forall (fun item => has_language item = true) batch) ->
  map_from (fun _ => delete_operation name) i batch
  = Returned (map (deletion partition_of c) batch).
Proof.
  intros Hname%keyed_as_known Hlanguage. revert i.
  induction batch as [| item batch IH]; intros i; [done |]. cbn [map_from map].
  rewrite IH by (intros Hc; specialize (Hlanguage Hc); by inversion Hlanguage).
  unfold Database.delete_operation. rewrite Hname. destruct c; [| done].
  specialize (Hlanguage eq_refl). inversion Hlanguage as [| ? ? Hitem _]; subst.
  by rewrite Hitem.
Qed.

Lemma delete_operations_are_deletes (name : string) (batch : list Item) (i : nat)
    (operations : list Operation) :
  map_from (fun _ => delete_operation name) i batch = Returned operations ->
  Forall (fun op => op_operationType op = Delete) operations
  /\ length operations = length batch.
Proof.
  revert i operations. induction batch as [| item batch IH]; intros i operations.
  { intros [= <-]. by split. }
  cbn [map_from].
  destruct (delete_operation name item) as [op | e] eqn:Hop; [| done].
  destruct (map_from _ (S i) batch) as [ops | e] eqn:Hops; [| done].
  intros [= <-]. destruct (IH _ _ Hops) as [Hall Hlen]. split; [| by cbn; rewrite Hlen].
  constructor; [| done].
  unfold Database.delete_operation in Hop.
  destruct (Database.keyed_as name); [destruct (has_language item) |];
    by inversion Hop.
Qed.

Lemma clearContainer_loop_resolved (name : string) (c : Container)
    (batches : list (list Item)) (s : St P) (w' : World P) :
  Database.this_container name = Some c ->
  (c = Data -> Forall (Forall (fun item => has_language item = true)) batches) ->
  bulk_resolved P c (map (map (deletion partition_of c)) batches) (world s) w' ->
  for_of batches (clearContainer_body name) tt s
  = (Returned (Next tt),
     {| world := w';
        log := log s ++ map (fun operations => SentBulk c operations false)
                            (map (map (deletion partition_of c)) batches) |}).
Proof.
  intros Hname Hlanguage. revert s.
  induction batches as [| batch batches IH]; intros s Hresolved.
  { inversion Hresolved; subst. cbn. by rewrite app_nil_r, St_eta. }
  cbn [map] in Hresolved.
  inversion Hresolved as [| ? ? ? results w1 ? Hbulk Hrest]; subst.
  rewrite for_of_cons, clearContainer_body_run.
  rewrite (delete_operations_made name c)
    by (try done; intros Hc; specialize (Hlanguage Hc); by inversion Hlanguage).
  rewrite Hname. cbn zeta. rewrite Hbulk. cbn [fst snd].
  rewrite IH; [| intros Hc; specialize (Hlanguage Hc); by inversion Hlanguage | done].
  cbn [world log map]. by rewrite <- (assoc_L (++)).
Qed.

(** clearContainer asks for the deletion of what it has read: when the
    reading of the container resolves with [resources] (each with a
    language, in the data container) and the bulk requests are resolved,
    with whatever results, the method sends, after the reading, one bulk
    request per chunk of the documents, with one delete operation per
    document, and returns.  The requests hold 1 to 100 operations each
    and together one operation per document read, in the order read.
    The results of the bulk requests are not looked at. *)
Theorem clearContainer_deletes_what_it_read (name : string) (c : Container)
    (resources : list Item) (s : St P) (w1 w' : World P) :
  Database.this_container name = Some c ->
  items_readAll P c (world s) = (Resolved resources, w1) ->
  (c = Data -> Forall (fun item => has_language item = true) resources) ->
  let requests := map (map (deletion partition_of c)) (chunk resources Database.bulkLimit) in
  bulk_resolved P c requests w1 w' ->
  clearContainer name s
  = (Returned tt,
     {| world := w';
        log := log s ++ SentReadAll c
                        :: map (fun operations => SentBulk c operations false) requests |})
  /\ concat requests = map (deletion partition_of c) resources
  /\ Forall (fun operations => 1 <= length operations <= 100) requests.
Proof.
  intros Hname Hread Hlanguage requests Hresolved. split; [| split].
  - rewrite clearContainer_run, Hname. cbn zeta.
    rewrite Hread. cbn [fst snd].
    rewrite (clearContainer_loop_resolved name c _ _ w' Hname); [| | done].
    + cbn [log world]. by rewrite <- (assoc_L (++)).
    + intros Hc. specialize (Hlanguage Hc). apply Forall_forall. intros batch Hbatch.
      apply Forall_forall. intros item Hitem.
      rewrite Forall_forall in Hlanguage. apply Hlanguage.
      rewrite <- (chunk_concat resources Database.bulkLimit).
      apply list_elem_of_In, in_concat. exists batch.
      split; by apply list_elem_of_In.
  - unfold requests. rewrite <- (chunk_concat resources Database.bulkLimit) at 2.
    generalize (chunk resources Database.bulkLimit). intros batches.
    induction batches as [| batch batches IH]; [done |].
    cbn. by rewrite IH, map_app.
  - unfold requests. apply Forall_forall. intros operations Hin.
    apply list_elem_of_fmap in Hin as (batch & -> & Hbatch).
    apply list_elem_of_lookup in Hbatch as [i Hi].
    destruct (chunk_lookup _ _ _ _ Hi) as (_ & Hlen & _).
    rewrite length_map. exact Hlen.
Qed.

(** *** what clear sends *)

Lemma sends_only_sent {A} (Q : Dispatch -> Prop) (t : Task P A) :
  sends_only Q t -> Forall Q (sent t) /\ resumes_with Q t.
Proof. destruct t as [a | e | B d call resume]; cbn; [done | done |]. intros [Hd H]. by split; [constructor |]. Qed.

(** Whatever order the answers arrive in, what leaves the process during
    an [await Promise.all] are the requests of the two calls. *)
Lemma Promise_all_log {A} (Q : Dispatch -> Prop) (t1 t2 : Task P A) (arrival : list bool)
    (s : St P) :
  resumes_with Q t1 -> resumes_with Q t2 ->
  exists l, log (Promise_all t1 t2 arrival s).2 = log s ++ l /\ Forall Q l.
Proof.
  assert (Hstep : forall (s : St P) (w : World P) (t : Task P A) (o : Outcome (A * A) * St P),
             sends_only Q t ->
             (resumes_with Q t ->
              exists l, log o.2 = log {| world := w; log := log s ++ sent t |} ++ l
                        /\ Forall Q l) ->
             exists l, log o.2 = log s ++ l /\ Forall Q l).
  { intros s0 w t o [Hsent Hresumes]%sends_only_sent IH.
    destruct (IH Hresumes) as (l & Hlog & Hl). cbn [log] in Hlog. exists (sent t ++ l).
    split; [by rewrite Hlog, <- (assoc_L (++)) | by apply Forall_app]. }
  revert t2 arrival s.
  induction t1 as [a1 | e1 | B1 d1 call1 resume1 IH1]; intros t2;
    induction t2 as [a2 | e2 | B2 d2 call2 resume2 IH2]; intros arrival s H1 H2;
    rewrite Promise_all_eq; cbn zeta;
    try (exists []; by rewrite app_nil_r).
  - eapply Hstep; [apply H2 |]. intros Ht. by apply IH2.
  - eapply Hstep; [apply H1 |]. intros Ht. by apply IH1.
  - destruct arrival as [| [] arrival].
    + eapply Hstep; [apply H1 |]. intros Ht. by apply IH1.
    + eapply Hstep; [apply H1 |]. intros Ht. by apply IH1.
    + eapply Hstep; [apply H2 |]. intros Ht. by apply IH2.
Qed.

Lemma clearContainer_loop_sends (name : string) (batches : list (list Item)) :
  sends_only bulk_delete (clearContainer_loop name batches).
Proof.
  induction batches as [| batch batches IH]; [done |]. cbn [Database.clearContainer_loop].
  destruct (map_from _ 0 batch) as [operations | e] eqn:Hops; [| done].
  destruct (Database.this_container name) as [c |]; [| done].
  split.
  - exists c, operations. split; [done |].
    by destruct (delete_operations_are_deletes _ _ _ _ Hops).
  - intros w. by destruct (items_bulk P c operations false w) as [[results | err] w'].
Qed.

Lemma clearContainer_call_resumes (name : string) :
  resumes_with bulk_delete (clearContainer_call name).
Proof.
  unfold Database.clearContainer_call.
  destruct (Database.this_container name) as [c |]; [| done].
  intros w. cbn. destruct (items_readAll P c w) as [[resources | err] w']; cbn; [| done].
  apply clearContainer_loop_sends.
Qed.

Lemma filter_bulk_delete (l : list Dispatch) :
  Forall bulk_delete l -> List.filter to_store l = l.
Proof.
  induction 1 as [| d l (c & operations & -> & _) _ IH]; [done |]. cbn. by rewrite IH.
Qed.

(** clear reads before it deletes, and does nothing else: whatever the
    order in which the answers arrive, and whether it returns or throws,
    the requests that clear sends to the store are the reading of the
    data container, the reading of the metadata container, and after
    these nothing but bulk requests of delete operations. *)
Theorem clear_reads_then_deletes (silent : bool) (arrival : list bool) (s : St P) :
  exists l deletions,
    log (Database.clear P this partition_of has_language silent arrival s).2 = log s ++ l
    /\ List.filter to_store l = SentReadAll Data :: SentReadAll Metadata :: deletions
    /\ Forall bulk_delete deletions.
Proof.
  unfold Database.clear. cbn zeta. unfold mbind, M_bind.
  destruct silent; cbn [negb]; unfold mret, M_ret, console_info, start; cbn [world log];
    match goal with |- context [Promise_all ?t1 ?t2 arrival ?s1] =>
      destruct (Promise_all_log bulk_delete t1 t2 arrival s1
                  (clearContainer_call_resumes "data")
                  (clearContainer_call_resumes "metadata")) as (l & Hlog & Hl);
      destruct (Promise_all t1 t2 arrival s1) as [[both | e1] s1'] end;
    cbn [snd log] in Hlog |- *; rewrite Hlog;
    rewrite <- ?(assoc_L (++)); eexists _, l; (split; [reflexivity |]); (split; [| done]);
    change (sent (clearContainer_call "data")) with [SentReadAll Data];
    change (sent (clearContainer_call "metadata")) with [SentReadAll Metadata];
    rewrite ?List.filter_app, (filter_bulk_delete l Hl); cbn [List.filter to_store app];
    by rewrite ?app_nil_r.
Qed.

(** *** setup *)


End Clearing.

(** * The public methods, containers by name *)

Section Named.
Context (P : Provider) (validate : Item -> option Err) (defaultStatus : Z).
Context (this : Database.t).
Context (partition_of : Container -> Item -> string) (has_language : Item -> bool).

Local Abbreviation handle :=
  (Database.handle P validate defaultStatus this partition_of has_language).

Lemma container_of_run (name : string) (s : St P) :
  Database.container_of P name s
  = match Database.this_container name with
    | Some c => (Returned c, s)
    | None => (Thrown (TypeError "Cannot read properties of undefined (reading 'items')"), s)
    end.
Proof. unfold Database.container_of. by destruct (Database.this_container name). Qed.

(** A loop whose body reaches for the container first: with a container
    behind the name it is the loop of the body; without one it throws at
    the first turn, if there is one. *)
Lemma for_of_by_name {X R S} (name : string) (body : Container -> X -> S -> M P (Step R S))
    (xs : list X) (acc : S) (s : St P) :
  for_of xs (fun x acc => c ← Database.container_of P name; body c x acc) acc s
  = match Database.this_container name with
    | Some c => for_of xs (body c) acc s
    | None =>
        match xs with
        | [] => (Returned (Next acc), s)
        | _ :: _ =>
            (Thrown (TypeError "Cannot read properties of undefined (reading 'items')"), s)
        end
    end.
Proof.
  destruct (Database.this_container name) as [c |] eqn:Hname.
  - revert acc s. induction xs as [|x xs IH]; intros acc s; [done |].
    rewrite !for_of_cons. unfold mbind at 1, M_bind at 1.
    rewrite container_of_run, Hname.
    destruct (body c x acc s) as [[[r | acc'] | e] s1]; [done | apply IH | done].
  - destruct xs as [|x xs]; [done |].
    rewrite for_of_cons. unfold mbind at 1, M_bind at 1.
    by rewrite container_of_run, Hname.
Qed.

Lemma chunk_cons {T} (x : T) (xs : list T) (size : positive) :
  exists b bs, chunk (x :: xs) size = b :: bs.
Proof. unfold chunk. cbn [length chunk_go]. by eexists _, _. Qed.

(** *** each method by name *)

Lemma seedOne_by_name_run (name : string) (data : Item) (s : St P) :
  Database.seedOne_by_name P validate name data s
  = match validate data, Database.this_container name with
    | Some e, _ => (Thrown (Raised e), s)
    | None, Some c => Database.seedOne P validate c data s
    | None, None =>
        (Thrown (TypeError "Cannot read properties of undefined (reading 'items')"), s)
    end.
Proof.
  unfold Database.seedOne_by_name, Database.seedOne, Database.validated.
  destruct (validate data) as [e |]; [done |].
  unfold mbind at 1, M_bind at 1, mret at 1, M_ret at 1.
  unfold mbind at 1, M_bind at 1. rewrite container_of_run.
  by destruct (Database.this_container name).
Qed.

Lemma seedMany_by_name_run (name : string) (count : nat) (data : Item) (s : St P) :
  Database.seedMany_by_name P validate partition_of name count data s
  = match validate data, Database.this_container name with
    | Some e, _ => (Thrown (Raised e), s)
    | None, Some c => Database.seedMany P validate partition_of c count data s
    | None, None =>
        match count with
        | 0 => (Returned [], s)
        | S _ =>
            (Thrown (TypeError "Cannot read properties of undefined (reading 'items')"), s)
        end
    end.
Proof.
  unfold Database.seedMany_by_name, Database.seedMany, Database.validated.
  destruct (validate data) as [e |]; [done |].
  unfold mbind at 1, M_bind at 1, mret at 1, M_ret at 1.
  cbn zeta. unfold mbind at 1, M_bind at 1. rewrite for_of_by_name.
  destruct (Database.this_container name) as [c |] eqn:Hname.
  - by rewrite (keyed_as_known _ _ Hname).
  - destruct count as [|n]; [done |]. cbn [replicate].
    by destruct (chunk_cons (Database.create_operation {| id := None; fields := fields data |})
                   (replicate n (Database.create_operation
                                   {| id := None; fields := fields data |}))
                   Database.bulkLimit) as (b & bs & ->).
Qed.

Lemma addOne_by_name_run (name : string) (data : Item) (s : St P) :
  Database.addOne_by_name P validate defaultStatus name data s
  = match Database.this_container name with
    | Some c => Database.addOne P validate defaultStatus c data s
    | None =>
        match validate data with
        | Some e => (Thrown (Raised e), s)
        | None =>
            (Returned (DatabaseResponse.mk None
                         (Some "Cannot read properties of undefined (reading 'items')")
                         (JNum defaultStatus)), s)
        end
    end.
Proof.
  unfold Database.addOne_by_name.
  destruct (Database.this_container name) as [c |] eqn:Hname; [done |].
  unfold Database.validated. destruct (validate data) as [e |]; [done |].
  unfold mbind at 1, M_bind at 1, mret at 1, M_ret at 1.
  unfold try_catch. unfold mbind at 1, M_bind at 1.
  by rewrite container_of_run, Hname.
Qed.

Lemma addMany_by_name_run (name key : string) (items : list Item) (s : St P) :
  Database.addMany_by_name P defaultStatus name key items s
  = match Database.this_container name with
    | Some c => Database.addMany P defaultStatus c key items s
    | None =>
        match items with
        | [] => (Returned (DatabaseResponse.mk (Some (DatabaseResponse.Bodies []))
                                               None (JNum 201)), s)
        | _ :: _ =>
            (Thrown (TypeError "Cannot read properties of undefined (reading 'items')"), s)
        end
    end.
Proof.
  unfold Database.addMany_by_name, Database.addMany.
  cbn zeta. unfold mbind at 1, M_bind at 1. rewrite for_of_by_name.
  destruct (Database.this_container name) as [c |]; [done |].
  destruct items as [|item items]; [done |]. cbn [map].
  by destruct (chunk_cons (Database.create_operation item)
                 (map Database.create_operation items) Database.bulkLimit)
    as (b & bs & ->).
Qed.

Lemma getOne_by_name_run (name partition id : string) (s : St P) :
  Database.getOne_by_name P defaultStatus name partition id s
  = match Database.this_container name with
    | Some c => Database.getOne P defaultStatus c partition id s
    | None =>
        (Thrown (TypeError "Cannot read properties of undefined (reading 'items')"), s)
    end.
Proof.
  unfold Database.getOne_by_name. unfold mbind at 1, M_bind at 1.
  rewrite container_of_run. by destruct (Database.this_container name).
Qed.

Lemma getMany_by_name_run (name key : string) (ids : list string) (s : St P) :
  Database.getMany_by_name P defaultStatus name key ids s
  = if decide (100 < length ids) then
      (Returned (DatabaseResponse.mk None
                   (Some "You can only retrieve 100 items at a time.") (JNum 400)), s)
    else
      match Database.this_container name with
      | Some c => Database.getMany P defaultStatus c key ids s
      | None =>
          (Thrown (TypeError "Cannot read properties of undefined (reading 'items')"), s)
      end.
Proof.
  unfold Database.getMany_by_name. change (Pos.to_nat Database.bulkLimit) with 100.
  case_bool_decide; case_decide; try done.
  unfold mbind at 1, M_bind at 1.
  rewrite container_of_run. by destruct (Database.this_container name).
Qed.


(** *** what the seed methods throw *)

Lemma seedMany_loop_outcome (c : Container) (key : string) (batches : list (list Operation))
    (acc : list OperationResponse) (s : St P) :
  match for_of batches (Database.seedMany_body P c key) acc s with
  | (Returned _, _) => True
  | (Thrown e, s') => rejected_request s s' e
  end.
Proof.
  revert acc s. induction batches as [|b bs IH]; intros acc s; [done |].
  rewrite for_of_cons.
  destruct (items_batch P c b key (world s)) as [p w] eqn:Hb.
  rewrite (seedMany_body_settled _ _ _ _ _ _ _ _ Hb).
  destruct p as [r | err].
  - match goal with |- context [for_of bs _ ?a ?s1] =>
      specialize (IH a s1); destruct (for_of bs _ a s1) as [[[r' | acc'] | e] s'] end;
      try done.
    by eapply (rejected_request_later P s _ s' e [SentBatch c b key]); [| exact IH].
  - by exists err, [], (SentBatch c b key).
Qed.

Lemma seedMany_outcome (c : Container) (count : nat) (data : Item) (s : St P) :
  match Database.seedMany P validate partition_of c count data s with
  | (Returned _, _) => True
  | (Thrown e, s') =>
      (exists err, validate data = Some err /\ e = Raised err /\ s' = s)
      \/ (validate data = None /\ rejected_request s s' e)
  end.
Proof.
  unfold Database.seedMany, Database.validated.
  destruct (validate data) as [err |]; [left; by exists err |].
  unfold mbind at 1, M_bind at 1, mret at 1, M_ret at 1.
  cbn zeta. unfold mbind, M_bind.
  match goal with |- context [for_of ?bs (Database.seedMany_body _ _ ?k) ?a s] =>
    pose proof (seedMany_loop_outcome c k bs a s) as H;
    destruct (for_of bs _ a s) as [[[[] | results] | e] s'] end; [done |].
  by right.
Qed.

Lemma seedOne_outcome (c : Container) (data : Item) (s : St P) :
  match Database.seedOne P validate c data s with
  | (Returned _, _) => True
  | (Thrown e, s') =>
      (exists err, validate data = Some err /\ e = Raised err /\ s' = s)
      \/ (validate data = None /\ rejected_request s s' e)
  end.
Proof.
  rewrite seedOne_run. destruct (validate data) as [err |]; [left; by exists err |].
  destruct (items_create P c data (world s)) as [[data' [response | e]] w]; [done |].
  right. split; [done |]. by exists e, [], (SentCreate c data).
Qed.

Lemma fmap_thrown {A B} (f : A -> B) (m : M P A) (s s' : St P) (e : Exn) :
  (f <$> m) s = (Thrown e, s') -> m s = (Thrown e, s').
Proof. rewrite fmap_run. destruct (m s) as [[a | e'] s1]; by intros [= <- <-]. Qed.

Lemma fmap_returned {A B} (f : A -> B) (m : M P A) (s s' : St P) (b : B) :
  (f <$> m) s = (Returned b, s') -> exists a, m s = (Returned a, s') /\ b = f a.
Proof.
  rewrite fmap_run. destruct (m s) as [[a | e'] s1]; [| done].
  intros [= <- <-]. by exists a.
Qed.



(** *** the responses *)

Lemma normalized_success (request : Database.Request) (s : St P)
    (payload : DatabaseResponse.Payload) (code : Z) :
  normalized request s (DatabaseResponse.mk (Some payload) None (JNum code)).
Proof. split; [done |]. left. by split; [| eexists]. Qed.

Lemma normalized_point (request : Database.Request) (s : St P) (response : ItemResponse) :
  point_settled P request (world s) = Some (Resolved response) ->
  normalized request s
    (DatabaseResponse.mk (DatabaseResponse.OneItem <$> resource response)
                         None (JNum (statusCode response))).
Proof.
  intros Hpoint. split; [done |].
  destruct (resource response) as [item |] eqn:Hresource; cbn.
  - left. by split; [| eexists].
  - right; left. split; [done |]. split; [done |]. by exists response.
Qed.

Lemma getOne_normalized (request : Database.Request) (c : Container)
    (partition id : string) (s s' : St P) (r : DatabaseResponse.t) :
  point_settled P request (world s) = Some (item_read P c id partition (world s)).1 ->
  Database.getOne P defaultStatus c partition id s = (Returned r, s') ->
  normalized request s r.
Proof.
  intros Hpoint. rewrite getOne_run.
  destruct (item_read P c id partition (world s)) as [[response | e] w]; [| done].
  intros [= <- _]. by apply normalized_point.
Qed.


End Named.

(** ** The public methods at work *)



(** clear on a store with two lexemes and a language, the answers for
    the metadata container arriving first: both containers are read
    before anything is deleted, and the store ends up empty. *)
Example clear_on_a_store :
  let language := {| id := Some "fr"; fields := [("type", JStr "Language")] |} in
  let partition_of c (item : Item) := match c with Data => "fr" | Metadata => "Language" end in
  let delete_one i key :=
    {| op_id := Some i; op_operationType := Delete;
       op_partitionKey := Some key; op_resourceBody := None |} in
  Database.clear (Memory.provider Memory.one_row) Memory.test_db partition_of (fun _ => true)
    true [false; true]
    (Memory.start [(Data, Memory.lexeme "1"); (Metadata, language); (Data, Memory.lexeme "2")])
  = (Returned tt,
     Build_St (Memory.provider Memory.one_row) []
       [SentReadAll Data; SentReadAll Metadata;
        SentBulk Metadata [delete_one "fr" "Language"] false;
        SentBulk Data [delete_one "1" "fr"; delete_one "2" "fr"] false]).
Proof. vm_compute. reflexivity. Qed.

(** clear when a lexeme has no language: the call for the data container
    fails with a [TypeError] once its documents are read; by then the
    call for the metadata container may have deleted its documents. *)
Example clear_fails_half_way :
  let language := {| id := Some "fr"; fields := [("type", JStr "Language")] |} in
  let partition_of c (item : Item) := match c with Data => "fr" | Metadata => "Language" end in
  let delete_one i key :=
    {| op_id := Some i; op_operationType := Delete;
       op_partitionKey := Some key; op_resourceBody := None |} in
  Database.clear (Memory.provider Memory.one_row) Memory.test_db partition_of (fun _ => false)
    true [false; false]
    (Memory.start [(Data, Memory.lexeme "1"); (Metadata, language)])
  = (Thrown (TypeError "Cannot read properties of undefined (reading 'id')"),
     Build_St (Memory.provider Memory.one_row) [(Data, Memory.lexeme "1")]
       [SentReadAll Data; SentReadAll Metadata;
        SentBulk Metadata [delete_one "fr" "Language"] false]).
Proof. vm_compute. reflexivity. Qed.

(** clear out of reach of the store: both requests leave, and the first
    rejection is thrown. *)
Example clear_offline :
  Database.clear Offline.provider Memory.test_db (fun _ _ => "fr") (fun _ => true)
    true [] Offline.start
  = (Thrown (Raised Offline.unavailable),
     Build_St Offline.provider tt [SentReadAll Data; SentReadAll Metadata]).
Proof. vm_compute. reflexivity. Qed.

(** clearContainer on a store with two lexemes and a language: the two
    lexemes are read and deleted in one bulk request. *)
Lemma clearContainer_deletes_what_it_read_witness :
  let P := Memory.provider Memory.one_row in
  let language := {| id := Some "fr"; fields := [("type", JStr "Language")] |} in
  let partition_of c (item : Item) := match c with Data => "fr" | Metadata => "Language" end in
  let delete_one i :=
    {| op_id := Some i; op_operationType := Delete;
       op_partitionKey := Some "fr"; op_resourceBody := None |} in
  let w := [(Data, Memory.lexeme "1"); (Metadata, language); (Data, Memory.lexeme "2")] in
  Database.clearContainer P partition_of (fun _ => true) "data" (Memory.start w)
  = (Returned tt,
     Build_St P [(Metadata, language)]
       [SentReadAll Data; SentBulk Data [delete_one "1"; delete_one "2"] false]).
Proof.
  intros P language partition_of delete_one w.
  refine (proj1 (clearContainer_deletes_what_it_read P partition_of (fun _ => true)
                   "data" Data [Memory.lexeme "1"; Memory.lexeme "2"] (Memory.start w)
                   w [(Metadata, language)] eq_refl eq_refl _ _)).
  - intros _. by repeat constructor.
  - eapply bulk_resolved_cons; [reflexivity | constructor].
Defined.
